(** * Agent.py: the generated statement parser and the generate/verify loop

    A shallow embedding of [src/Agent.py]: the parser that [PARSER_TEMPLATE]
    emits ([_extract_tables], [parse]) with [EXPECTED_COLUMNS] as a parameter,
    [write_parser] / [write_test] / [run_pytest_for_target] and [main].

    Library calls are modelled by what they do on the values this program
    hands them:
    - text is a [string] of code points 0..255, with Python 3's notion of
      whitespace and of line boundaries on that range;
    - table cells are [str], as [_extract_tables] is annotated;
    - [difflib.SequenceMatcher] runs without junk (its automatic junk
      heuristic needs a sequence of 200 elements or more), and its scores are
      exact rationals;
    - frames are pandas 2.x frames whose columns are all object-typed: labels
      may repeat, a short row is padded with [None], and [astype(str)] turns
      every cell, missing or not, into its [str]; [pd.NA] enters a frame
      through [df[col] = pd.NA] only, which makes a column block of its own,
      and [pd.concat] of two or more frames refills such a block with [nan];
    - [str.format] is the scanner of CPython on the two templates, whose text
      is carried over character by character; the rendering of a field that
      was found is left symbolic;
    - the agent sees three directories as finite maps; [expected.csv], when
      present, is readable; an exception nobody catches ends the process
      with status 1; the outcome of each [pytest] subprocess is given by an
      oracle indexed by the number of earlier runs. *)

From Stdlib Require Import Ascii String QArith.
From stdpp Require Import base option list strings gmap.

Local Open Scope nat_scope.

(** ** Python [str] and [re] on the patterns the parser uses *)

Module Py.

(** [str.isspace] on one character, which is also what [\s] matches in a
    [str] pattern: TAB..CR, FS..US, SPACE, NEL and NBSP. *)
Definition isspace (c : ascii) : bool :=
  let n := nat_of_ascii c in
  (9 <=? n) && (n <=? 13) || (28 <=? n) && (n <=? 32) || (n =? 133) || (n =? 160).

(** The line boundaries of [str.splitlines]. *)
Definition is_linebreak (c : ascii) : bool :=
  let n := nat_of_ascii c in
  (10 <=? n) && (n <=? 13) || (28 <=? n) && (n <=? 30) || (n =? 133).

Definition TAB : ascii := ascii_of_nat 9.
Definition LF : ascii := ascii_of_nat 10.
Definition CR : ascii := ascii_of_nat 13.

Fixpoint lstrip (s : string) : string :=
  match s with
  | EmptyString => EmptyString
  | String c s' => if isspace c then lstrip s' else s
  end.

Fixpoint rstrip (s : string) : string :=
  match s with
  | EmptyString => EmptyString
  | String c s' =>
      match rstrip s' with
      | EmptyString => if isspace c then EmptyString else String c EmptyString
      | r => String c r
      end
  end.

(** [s.strip()] *)
Definition strip (s : string) : string := rstrip (lstrip s).

(** [s.splitlines()]: [after_cr] remembers that the boundary just emitted was
    a CR, so that a following LF belongs to the same boundary. *)
Fixpoint splitlines_from (after_cr : bool) (cur : string) (s : string) : list string :=
  match s with
  | EmptyString => match cur with EmptyString => [] | _ => [cur] end
  | String c s' =>
      if after_cr && Ascii.eqb c LF then splitlines_from false cur s'
      else if is_linebreak c then cur :: splitlines_from (Ascii.eqb c CR) EmptyString s'
      else splitlines_from false (cur ++ String c EmptyString) s'
  end.

Definition splitlines (s : string) : list string := splitlines_from false EmptyString s.

Definition starts_with_space (s : string) : bool :=
  match s with
  | EmptyString => false
  | String c _ => isspace c
  end.

(** [re.split(r"\s{2,}|\t", s)].  Scanning left to right, the first
    alternative matches greedily at the start of a run of two or more
    whitespace characters ([in_run] while the run is being consumed), the
    second at a lone TAB; [tok] is the piece collected since the last match. *)
Fixpoint re_split_from (in_run : bool) (tok : string) (s : string) : list string :=
  match s with
  | EmptyString => [tok]
  | String c s' =>
      if isspace c then
        if in_run then re_split_from true tok s'
        else if starts_with_space s' then tok :: re_split_from true EmptyString s'
        else if Ascii.eqb c TAB then tok :: re_split_from false EmptyString s'
        else re_split_from false (tok ++ String c EmptyString) s'
      else re_split_from false (tok ++ String c EmptyString) s'
  end.

Definition re_split_cols (s : string) : list string := re_split_from false EmptyString s.

(** [re.sub(r"\s+", " ", s)] *)
Fixpoint re_sub_ws_from (in_run : bool) (s : string) : string :=
  match s with
  | EmptyString => EmptyString
  | String c s' =>
      if isspace c then
        if in_run then re_sub_ws_from true s' else String " " (re_sub_ws_from true s')
      else String c (re_sub_ws_from false s')
  end.

Definition re_sub_ws (s : string) : string := re_sub_ws_from false s.

(** [" ".join(r)] *)
Definition join_space (r : list string) : string := String.concat " " r.

(** [str.lower] on one character of the range. *)
Definition lower_char (c : ascii) : ascii :=
  let n := nat_of_ascii c in
  if (65 <=? n) && (n <=? 90) || (192 <=? n) && (n <=? 222) && negb (n =? 215)
  then ascii_of_nat (n + 32) else c.

Fixpoint lower (s : string) : string :=
  match s with
  | EmptyString => EmptyString
  | String c s' => String (lower_char c) (lower s')
  end.

(** *** [str.format] with keyword arguments *)

(** The values the agent hands to [str.format]. *)
Inductive value := VStr (s : string) | VList (l : list string).

(** Formatted text: literal text, and the replacement fields that were
    resolved, left unrendered (the value, the whole field name with its
    attribute and index part, the conversion and the format spec). *)
Inductive piece :=
  | Text (s : string)
  | Field (v : value) (field_name : string) (conversion : option ascii) (spec : string).

Inductive exc := KeyError (key : string) | IndexError | ValueError.

Inductive result (A : Type) := Done (a : A) | Raised (e : exc).
Arguments Done {A} a.
Arguments Raised {A} e.

Definition LBRACE : ascii := "{".
Definition RBRACE : ascii := "}".

(** The first part of a field name: up to the first [.] or [[]. *)
Fixpoint arg_name (field_name : string) : string :=
  match field_name with
  | EmptyString => EmptyString
  | String c s' =>
      if Ascii.eqb c "." || Ascii.eqb c "[" then EmptyString else String c (arg_name s')
  end.

Fixpoint all_digits (s : string) : bool :=
  match s with
  | EmptyString => true
  | String c s' =>
      let n := nat_of_ascii c in (48 <=? n) && (n <=? 57) && all_digits s'
  end.

Fixpoint lookup_kwarg (key : string) (kwargs : list (string * value)) : option value :=
  match kwargs with
  | [] => None
  | (k, v) :: kwargs' => if String.eqb k key then Some v else lookup_kwarg key kwargs'
  end.

(** The object a field names.  No positional argument is passed, so an empty
    or numeric first part is out of range; any other is a keyword. *)
Definition get_field (field_name : string) (kwargs : list (string * value)) : result value :=
  let first := arg_name field_name in
  if all_digits first then Raised IndexError
  else match lookup_kwarg first kwargs with
       | Some v => Done v
       | None => Raised (KeyError first)
       end.

(** A complete field: the object is looked up, then the conversion is
    checked. *)
Definition resolve (field_name : string) (conversion : option ascii) (spec : string)
    (kwargs : list (string * value)) : result piece :=
  match get_field field_name kwargs with
  | Raised e => Raised e
  | Done v =>
      match conversion with
      | Some c =>
          if Ascii.eqb c "r" || Ascii.eqb c "s" || Ascii.eqb c "a"
          then Done (Field v field_name conversion spec)
          else Raised ValueError
      | None => Done (Field v field_name conversion spec)
      end
  end.

(** Where the scanner stands. *)
Inductive scan :=
  | Literal                                  (* in literal text *)
  | Open                                     (* after a left brace *)
  | Close                                    (* after a right brace in literal text *)
  | Name (name : string)                     (* in a field name *)
  | Bracket (name : string)                  (* inside the brackets of a field name *)
  | Bang (name : string)                     (* after the exclamation mark *)
  | Converted (name : string) (c : ascii)    (* after the conversion character *)
  | InSpec (name : string) (conversion : option ascii) (depth : nat) (spec : string).

Definition flush (lit : string) : list piece :=
  match lit with
  | EmptyString => []
  | _ => [Text lit]
  end.

Definition snoc (s : string) (c : ascii) : string := (s ++ String c EmptyString)%string.

(** The scanner of [str.format] (CPython's [MarkupIterator_next] and
    [parse_field]): doubled braces are literal braces, a single right brace
    in literal text and anything left open at the end are [ValueError]s, and
    each field is resolved as soon as its closing brace is read, so that the
    first field that fails decides the exception. *)
Fixpoint format_from (st : scan) (lit : string) (out : list piece)
    (kwargs : list (string * value)) (s : string) : result (list piece) :=
  match s with
  | EmptyString =>
      match st with
      | Literal => Done (out ++ flush lit)
      | _ => Raised ValueError
      end
  | String c s' =>
      let field name conversion spec :=
        match resolve name conversion spec kwargs with
        | Raised e => Raised e
        | Done f => format_from Literal EmptyString (out ++ flush lit ++ [f]) kwargs s'
        end in
      let in_name name :=
        if Ascii.eqb c LBRACE then Raised ValueError
        else if Ascii.eqb c "[" then format_from (Bracket (snoc name c)) lit out kwargs s'
        else if Ascii.eqb c RBRACE then field name None EmptyString
        else if Ascii.eqb c ":" then format_from (InSpec name None 1 EmptyString) lit out kwargs s'
        else if Ascii.eqb c "!" then format_from (Bang name) lit out kwargs s'
        else format_from (Name (snoc name c)) lit out kwargs s' in
      match st with
      | Literal =>
          if Ascii.eqb c LBRACE then format_from Open lit out kwargs s'
          else if Ascii.eqb c RBRACE then format_from Close lit out kwargs s'
          else format_from Literal (snoc lit c) out kwargs s'
      | Open =>
          if Ascii.eqb c LBRACE then format_from Literal (snoc lit c) out kwargs s'
          else in_name EmptyString
      | Close =>
          if Ascii.eqb c RBRACE then format_from Literal (snoc lit c) out kwargs s'
          else Raised ValueError
      | Name name => in_name name
      | Bracket name =>
          if Ascii.eqb c "]" then format_from (Name (snoc name c)) lit out kwargs s'
          else format_from (Bracket (snoc name c)) lit out kwargs s'
      | Bang name => format_from (Converted name c) lit out kwargs s'
      | Converted name conv =>
          if Ascii.eqb c RBRACE then field name (Some conv) EmptyString
          else if Ascii.eqb c ":"
          then format_from (InSpec name (Some conv) 1 EmptyString) lit out kwargs s'
          else Raised ValueError
      | InSpec name conversion depth spec =>
          if Ascii.eqb c LBRACE
          then format_from (InSpec name conversion (S depth) (snoc spec c)) lit out kwargs s'
          else if Ascii.eqb c RBRACE
          then match depth with
               | 1 => field name conversion spec
               | _ => format_from (InSpec name conversion (pred depth) (snoc spec c))
                        lit out kwargs s'
               end
          else format_from (InSpec name conversion depth (snoc spec c)) lit out kwargs s'
      end
  end.

(** [template.format] with the keyword arguments [kwargs]. *)
Definition format (template : string) (kwargs : list (string * value)) : result (list piece) :=
  format_from Literal EmptyString [] kwargs template.

(** The text whose lines are [lines], each closed by LF. *)
Definition unlines (lines : list string) : string :=
  fold_right (fun line text => (line ++ String LF text)%string) EmptyString lines.

End Py.

(** ** [difflib]: [SequenceMatcher] without junk and [get_close_matches]

    [get_close_matches] builds [SequenceMatcher()] with no [isjunk]; the
    automatic junk heuristic needs a second sequence of 200 elements or more
    and is not modelled. *)

Module Difflib.

Fixpoint common_prefix (a b : list ascii) : nat :=
  match a, b with
  | x :: a', y :: b' => if Ascii.eqb x y then S (common_prefix a' b') else 0
  | _, _ => 0
  end.

(** The block is [(i, j, k)]: [a[i:i+k] == b[j:j+k]]. *)
Definition block : Type := nat * nat * nat.
Definition block_size (m : block) : nat := m.2.

(** Longest block starting at position [i] of [a] ([asuf] is [a[i:]]), the
    earliest in [b] on ties; [best] is replaced only by a longer block. *)
Fixpoint scan_b (asuf b : list ascii) (i j : nat) (best : block) : block :=
  match b with
  | [] => best
  | _ :: b' =>
      let k := common_prefix asuf b in
      scan_b asuf b' i (S j) (if block_size best <? k then (i, j, k) else best)
  end.

Fixpoint scan_a (a b : list ascii) (i : nat) (best : block) : block :=
  match a with
  | [] => best
  | _ :: a' => scan_a a' b (S i) (scan_b a b i 0 best)
  end.

(** [find_longest_match]: of all maximal matching blocks the one that starts
    earliest in [a], and of those the one that starts earliest in [b];
    [(0, 0, 0)] when nothing matches. *)
Definition find_longest_match (a b : list ascii) : block := scan_a a b 0 (0, 0, 0).

(** Sum of the sizes of [get_matching_blocks()]: the longest block, then the
    pieces to its left and to its right. *)
Fixpoint matching (fuel : nat) (a b : list ascii) : nat :=
  match fuel with
  | 0 => 0
  | S fuel' =>
      let '(i, j, k) := find_longest_match a b in
      if k =? 0 then 0
      else k + matching fuel' (take i a) (take j b)
             + matching fuel' (drop (i + k) a) (drop (j + k) b)
  end.

Definition matches (a b : list ascii) : nat := matching (S (length a)) a b.

(** [SequenceMatcher(None, a, b).ratio()] as an exact rational:
    [2.0 * matches / (len(a) + len(b))], and [1.0] when both are empty. *)
Definition ratio (a b : string) : Q :=
  let la := list_ascii_of_string a in
  let lb := list_ascii_of_string b in
  let T := length la + length lb in
  if T =? 0 then 1%Q else (Z.of_nat (2 * matches la lb) # Pos.of_nat T)%Q.

(** The float [0.6].  Scores are quotients of small integers, so comparing
    the floats gives what comparing the rationals gives. *)
Definition cutoff : Q := (6 # 10)%Q.

(** Order on the [(score, x)] tuples that [heapq.nlargest] compares. *)
Definition tuple_gt (p q : Q * string) : bool :=
  negb (Qle_bool p.1 q.1) || (Qeq_bool p.1 q.1 && String.ltb q.2 p.2).

(** One step of [max] over the tuples: a later tuple replaces the best one
    only when it is greater. *)
Definition keep_best (best x : Q * string) : Q * string :=
  if tuple_gt x best then x else best.

(** [heapq.nlargest(1, result)]: the first maximal element. *)
Definition nlargest1 (result : list (Q * string)) : list (Q * string) :=
  match result with
  | [] => []
  | r :: rs => [fold_left keep_best rs r]
  end.

(** The [result] list of [get_close_matches]: the possibilities scoring at
    least [cutoff], with their scores.  The two quick ratios tested before
    [ratio()] are upper bounds of it. *)
Definition scored (word : string) (possibilities : list string) : list (Q * string) :=
  flat_map (fun x => let r := ratio x word in
                     if Qle_bool cutoff r then [(r, x)] else []) possibilities.

(** [get_close_matches(word, possibilities, n=1, cutoff=0.6)] *)
Definition get_close_matches (word : string) (possibilities : list string) : list string :=
  map snd (nlargest1 (scored word possibilities)).

End Difflib.

(** ** pandas frames as the parser uses them *)

Module Pandas.

(** A cell of an object-typed column: a Python [str], [None] (the padding of
    a short row), [pd.NA] (the null sentinel) or [nan] (reindexing fill). *)
Inductive cell := CStr (s : string) | CNone | CNA | CNaN.

#[global] Instance cell_eq_dec : EqDecision cell.
Proof. solve_decision. Defined.

(** [str(x)] of a cell, as [astype(str)] applies it. *)
Definition py_str (c : cell) : string :=
  match c with
  | CStr s => s
  | CNone => "None"
  | CNA => "<NA>"
  | CNaN => "nan"
  end.

(** Column labels (duplicates allowed, as in pandas) and the rows under the
    default integer index. *)
Record DataFrame := mkDataFrame { columns : list string; rows : list (list cell) }.

#[global] Instance DataFrame_eq_dec : EqDecision DataFrame.
Proof. solve_decision. Defined.

Inductive exn := ValueError | KeyError | AttributeError | InvalidIndexError.

Inductive res (A : Type) := Ok (a : A) | Raise (e : exn).
Arguments Ok {A} a.
Arguments Raise {A} e.

#[global] Instance res_ret : MRet res := fun A a => Ok a.
#[global] Instance res_bind : MBind res := fun A B f m =>
  match m with
  | Ok a => f a
  | Raise e => Raise e
  end.

Definition well_formed (df : DataFrame) : Prop :=
  Forall (fun r => length r = length (columns df)) (rows df).

(** A row of [to_object_array]: cells beyond the row's own are [None]. *)
Definition pad (k : nat) (r : list string) : list cell :=
  (CStr <$> r) ++ replicate (k - length r) CNone.

(** [pd.DataFrame(data, columns=header)] for a list of lists: no data gives
    the empty frame with the header; otherwise the rows are padded to the
    widest one and that width must be the number of labels
    (else [ValueError]: n columns passed, passed data had m columns). *)
Definition DataFrame_of_rows (data : list (list string)) (header : list string) : res DataFrame :=
  match data with
  | [] => Ok (mkDataFrame header [])
  | _ =>
      let k := max_list (length <$> data) in
      if decide (length header = k)
      then Ok (mkDataFrame header (pad k <$> data))
      else Raise ValueError
  end.

(** [df.columns = labels] (same number of labels). *)
Definition set_columns (df : DataFrame) (labels : list string) : DataFrame :=
  mkDataFrame labels (rows df).

(** [df.rename(columns=mapping)] *)
Definition rename (df : DataFrame) (mapping : gmap string string) : DataFrame :=
  mkDataFrame ((fun c => default c (mapping !! c)) <$> columns df) (rows df).

(** [df[col] = v] for a scalar [v]: a new last column, or every column
    already carrying the label overwritten. *)
Definition setitem (df : DataFrame) (col : string) (v : cell) : DataFrame :=
  if decide (col ∈ columns df)
  then mkDataFrame (columns df)
         ((fun r => zip_with (fun lbl x => if decide (lbl = col) then v else x) (columns df) r)
            <$> rows df)
  else mkDataFrame (columns df ++ [col]) ((fun r => r ++ [v]) <$> rows df).

(** The entries of [r] under the labels [keys], key by key; a label carried
    by several columns selects all of them. *)
Definition select {A} (cols keys : list string) (r : list A) : list A :=
  keys ≫= (fun k => snd <$> filter (fun p => p.1 = k) (zip cols r)).

(** [df[keys]] for a list of labels ([KeyError] when one is missing). *)
Definition getitem (df : DataFrame) (keys : list string) : res DataFrame :=
  if decide (Forall (fun k => k ∈ columns df) keys)
  then Ok (mkDataFrame (select (columns df) keys (columns df))
             (select (columns df) keys <$> rows df))
  else Raise KeyError.

(** Reindexing one row to the labels [u]; absent labels give [nan]. *)
Definition reindex_row (cols u : list string) (r : list cell) : list cell :=
  (fun k => default CNaN ((list_to_map (zip cols r) : gmap string cell) !! k)) <$> u.

(** What [pd.concat] of two or more frames leaves of a cell.  A column block
    that holds nothing but missing values is not copied but made anew,
    filled with [nan]; the [pd.NA] cells of a frame are those of the columns
    [df[col] = pd.NA] added, each a block of its own, while [None] stands
    among text in the block of the data, which is copied as it is. *)
Definition refill (x : cell) : cell :=
  match x with
  | CNA => CNaN
  | _ => x
  end.

(** The rows of a frame as they enter the concatenation of several. *)
Definition refilled (g : DataFrame) : list (list cell) :=
  (fun r : list cell => refill <$> r) <$> rows g.

(** [pd.concat(frames, ignore_index=True)]: a single frame is returned as it
    is; several frames with equal columns are stacked; otherwise the columns
    are united in order of appearance, which needs every frame's labels
    unique ([InvalidIndexError] if not). *)
Definition concat (frames : list DataFrame) : res DataFrame :=
  match frames with
  | [] => Raise ValueError
  | [f] => Ok (mkDataFrame (columns f) (rows f))
  | f :: fs =>
      if decide (Forall (fun g => columns g = columns f) fs)
      then Ok (mkDataFrame (columns f) (mjoin (refilled <$> frames)))
      else if decide (Forall (fun g => NoDup (columns g)) frames)
      then let u := remove_dups (mjoin (columns <$> frames)) in
           Ok (mkDataFrame u
                 (mjoin ((fun g => reindex_row (columns g) u <$> refilled g) <$> frames)))
      else Raise InvalidIndexError
  end.

(** [x.astype(str).str.strip()] on one cell. *)
Definition str_strip (x : cell) : cell := CStr (Py.strip (py_str x)).

(** [df[c] = df[c].astype(str).str.strip()]: [df[c]] is a Series when one
    column carries the label; when several do it is a frame, which has no
    [.str] ([AttributeError]). *)
Definition strip_column (df : DataFrame) (c : string) : res DataFrame :=
  match length (filter (fun lbl => lbl = c) (columns df)) with
  | 0 => Raise KeyError
  | 1 => Ok (mkDataFrame (columns df)
               ((fun r => zip_with (fun lbl x => if decide (lbl = c) then str_strip x else x)
                            (columns df) r) <$> rows df))
  | _ => Raise AttributeError
  end.

(** [df.select_dtypes(include=['object']).columns]: every column of a frame
    built by the parser holds [str], [None] or [pd.NA] and is object-typed. *)
Definition object_columns (df : DataFrame) : list string := columns df.

End Pandas.

Export Pandas.

(** ** The generated parser *)

(** One page of the document as [pdfplumber] presents it. *)
Record page := mkPage {
  extract_table : option (list (list string));
  extract_text : option string
}.

(** A table as [_extract_tables] is annotated to return it,
    [List[List[str]]]: rows of string cells, the first row the header. *)
Definition RawTable : Type := list (list string).

(** The body of the page loop of [_extract_tables]. *)
Definition extract_page (tables : list RawTable) (p : page) : list RawTable :=
  match extract_table p with
  | Some (r :: t) => tables ++ [r :: t]
  | _ =>
      match extract_text p with
      | Some (String c text) =>
          let lines := Py.strip <$>
                         filter (fun line => Py.strip line ≠ EmptyString)
                                (Py.splitlines (String c text)) in
          match lines with
          | [] => tables
          | _ => tables ++ [Py.re_split_cols <$> lines]
          end
      | _ => tables
      end
  end.

Definition _extract_tables (pdf : list page) : list RawTable :=
  fold_left extract_page pdf [].

Section Parser.

Variable EXPECTED_COLUMNS : list string.

(** [re.sub(r"\s+", " ", str(c)).strip()] *)
Definition normalize_label (c : string) : string := Py.strip (Py.re_sub_ws c).

(** The body of the loop that fills [mapping] (lines 70-72). *)
Definition mapping_step (cols : list string) (mapping : gmap string string) (exp : string)
    : gmap string string :=
  match Difflib.get_close_matches exp cols with
  | m :: _ => <[m := exp]> mapping
  | [] => mapping
  end.

(** The loop that fills [mapping] (lines 68-72). *)
Definition close_mapping (cols : list string) : gmap string string :=
  fold_left (mapping_step cols) EXPECTED_COLUMNS ∅.

(** The loop that adds the missing expected columns (lines 76-78). *)
Definition ensure_columns (df : DataFrame) : DataFrame :=
  fold_left (fun df col => if decide (col ∈ columns df) then df else setitem df col CNA)
    EXPECTED_COLUMNS df.

(** The fallback frame of line 64: one column ["raw"], one cell per row of
    [t], the header row included. *)
Definition raw_frame (t : RawTable) : DataFrame :=
  mkDataFrame ["raw"] ((fun r => [CStr (Py.join_space r)]) <$> t).

(** Lines 58-64: the frame built from one table. *)
Definition table_frame (t : RawTable) : DataFrame :=
  let header := hd [] t in
  let rows := tail t in
  match DataFrame_of_rows rows header with
  | Ok df => df
  | Raise _ => raw_frame t
  end.

(** The body of the candidate loop of [parse] for a non-empty table
    (lines 58-79): the aligned frame. *)
Definition align (t : RawTable) : res DataFrame :=
  let df := table_frame t in
  let df := set_columns df (normalize_label <$> columns df) in
  let mapping := close_mapping (columns df) in
  let df := if decide (mapping = ∅) then df else rename df mapping in
  let df := ensure_columns df in
  getitem df EXPECTED_COLUMNS.

(** The basic cleanup (lines 84-85). *)
Definition cleanup (result : DataFrame) : res DataFrame :=
  fold_left (fun acc c => result ← acc; strip_column result c)
    (object_columns result) (Ok result).

(** The end of [parse] (lines 81-88): the assembled frame. *)
Definition assemble (candidates : list DataFrame) : res DataFrame :=
  match candidates with
  | [] => Ok (mkDataFrame EXPECTED_COLUMNS [])
  | _ => result ← concat candidates; cleanup result
  end.

Definition parse_candidates (tables : list RawTable) : res (list DataFrame) :=
  fold_left
    (fun acc t =>
       candidates ← acc;
       match t with
       | [] => Ok candidates
       | _ => df ← align t; Ok (candidates ++ [df])
       end)
    tables (Ok []).

Definition parse (pdf : list page) : res DataFrame :=
  candidates ← parse_candidates (_extract_tables pdf);
  assemble candidates.

End Parser.

(** ** The generated test *)

(** [df.astype(str).apply(lambda col: col.str.strip())] (lines 103-104): every
    cell rendered as text and stripped, column by column; [apply] walks the
    columns by position, so repeated labels do no harm. *)
Definition normalize_for_comparison (df : DataFrame) : DataFrame :=
  mkDataFrame (columns df) ((fun r : list cell => str_strip <$> r) <$> rows df).

(** ** The agent: synthesis, the test run and the retry loop *)

Module Agent.

(** *** The two templates *)

Definition DQ : string := String (ascii_of_nat 34) EmptyString.

(** The text of [PARSER_TEMPLATE] (lines 18-89), line by line. *)
Definition PARSER_TEMPLATE : string :=
  Py.unlines [
    (DQ ++ DQ ++ DQ ++ "Auto-generated parser for {target}.")%string;
    "";
    "Implements parse(pdf_path: str) -> pd.DataFrame.";
    "Simple heuristic: use pdfplumber to extract tables; try to align column names to expected columns.";
    (DQ ++ DQ ++ DQ)%string;
    "from typing import List";
    "import pdfplumber";
    "import pandas as pd";
    "import re";
    "from difflib import get_close_matches";
    "";
    "EXPECTED_COLUMNS = {expected_columns!r}";
    "";
    "def _extract_tables(pdf_path: str) -> List[List[List[str]]]:";
    "    tables = []";
    "    with pdfplumber.open(pdf_path) as pdf:";
    "        for p in pdf.pages:";
    "            # try extract_table (may return None)";
    "            t = p.extract_table()";
    "            if t:";
    "                tables.append(t)";
    "            else:";
    "                text = p.extract_text()";
    "                if text:";
    "                    # crude split: each non-empty line -> token list";
    "                    lines = [line.strip() for line in text.splitlines() if line.strip()]";
    "                    if lines:";
    ("                        token_rows = [re.split(r" ++ DQ ++ "\s{2,}|\t" ++ DQ ++ ", line) for line in lines]")%string;
    "                        # if first row looks like header (contains words), include";
    "                        tables.append(token_rows)";
    "    return tables";
    "";
    "def parse(pdf_path: str) -> pd.DataFrame:";
    "    tables = _extract_tables(pdf_path)";
    "    candidates = []";
    "    for t in tables:";
    "        if not t:";
    "            continue";
    "        # try convert first row as header";
    "        header = t[0]";
    "        rows = t[1:] if len(t) > 1 else []";
    "        try:";
    "            df = pd.DataFrame(rows, columns=header)";
    "        except Exception:";
    "            # fallback: one-column dataframe with joined text";
    ("            df = pd.DataFrame({" ++ DQ ++ "raw" ++ DQ ++ ": [" ++ DQ ++ " " ++ DQ ++ ".join(r) if isinstance(r, list) else str(r) for r in t]})")%string;
    "        # normalize column names";
    ("        df.columns = [re.sub(r" ++ DQ ++ "\s+" ++ DQ ++ ", " ++ DQ ++ " " ++ DQ ++ ", str(c)).strip() for c in df.columns]")%string;
    "        # try to map close column names to expected columns";
    "        mapping = {}";
    "        for exp in EXPECTED_COLUMNS:";
    "            match = get_close_matches(exp, df.columns, n=1, cutoff=0.6)";
    "            if match:";
    "                mapping[match[0]] = exp";
    "        if mapping:";
    "            df = df.rename(columns=mapping)";
    "        # ensure all expected columns exist";
    "        for col in EXPECTED_COLUMNS:";
    "            if col not in df.columns:";
    "                df[col] = pd.NA";
    "        df = df[EXPECTED_COLUMNS]";
    "        candidates.append(df)";
    "    if candidates:";
    "        result = pd.concat(candidates, ignore_index=True)";
    "        # basic cleanup";
    "        for c in result.select_dtypes(include=['object']).columns:";
    "            result[c] = result[c].astype(str).str.strip()";
    "        return result";
    "    # nothing found -> empty with expected cols";
    "    return pd.DataFrame(columns=EXPECTED_COLUMNS)"
  ].

(** The text of [TEST_TEMPLATE] (lines 91-106). *)
Definition TEST_TEMPLATE : string :=
  Py.unlines [
    "import os";
    "import pandas as pd";
    "from custom_parser.{target}_parser import parse";
    "";
    "def test_parse_matches_expected():";
    "    data_dir = os.path.join(os.path.dirname(__file__), '..', 'data', '{target}')";
    "    pdf_path = os.path.join(data_dir, 'sample.pdf')";
    "    expected_csv = os.path.join(data_dir, 'expected.csv')";
    "    df_actual = parse(pdf_path)";
    "    df_expected = pd.read_csv(expected_csv)";
    "    # normalize to strings and strip whitespace";
    "    df_actual = df_actual.astype(str).apply(lambda col: col.str.strip())";
    "    df_expected = df_expected.astype(str).apply(lambda col: col.str.strip())";
    "    assert df_actual.equals(df_expected)"
  ].

(** *** The world of the agent *)

(** The content of a written file: formatted text. *)
Definition file : Type := list Py.piece.

(** [expected.csv] as [pd.read_csv] reads it: the header and the rows. *)
Record csv := mkCsv { csv_columns : list string; csv_rows : list (list string) }.

(** A folder [data/<target>] with the two files it may hold. *)
Record folder := mkFolder {
  sample_pdf : option (list page);
  expected_csv : option csv
}.

(** What the agent prints, and the test subprocess it starts. *)
Inductive line :=
  | ErrorNoFolder (target : string)
  | ErrorRequireFiles (target : string)
  | ExpectedColumns (cols : list string)
  | WroteTest (path : string)
  | WroteParser (path : string)
  | Attempt (attempt max_attempts : nat)
  | TestFileMissing
  | PytestPassed
  | PytestFailed
  | Success (attempt : nat)
  | SelfFix
  | Failed.

(** The three directories under [ROOT], the output so far and the number of
    [pytest] subprocesses started so far. *)
Record state := mkState {
  DATA_DIR : gmap string folder;
  CUSTOM_DIR : gmap string file;
  TESTS_DIR : gmap string file;
  stdout : list line;
  pytest_runs : nat
}.

(** A computation returns, leaves through [sys.exit(code)], or is ended by
    an exception that nothing catches. *)
Inductive outcome (A : Type) := Return (a : A) | SysExit (code : Z) | Uncaught (e : Py.exc).
Arguments Return {A} a.
Arguments SysExit {A} code.
Arguments Uncaught {A} e.

Definition M (A : Type) : Type := state → outcome A * state.

Definition ret {A} (a : A) : M A := fun st => (Return a, st).

Definition bind {A B} (m : M A) (k : A → M B) : M B := fun st =>
  match m st with
  | (Return a, st') => k a st'
  | (SysExit code, st') => (SysExit code, st')
  | (Uncaught e, st') => (Uncaught e, st')
  end.

Notation "'let!' x ':=' m 'in' k" := (bind m (fun x => k))
  (at level 10, x name, m at level 100, k at level 200, only parsing).
Notation "'do!' m 'in' k" := (bind m (fun _ => k))
  (at level 10, m at level 100, k at level 200, only parsing).

(** Looking a path up under [data/] and under [tests/]. *)
Definition read_folder (target : string) : M (option folder) := fun st =>
  (Return (DATA_DIR st !! target), st).

Definition read_test (path : string) : M (option file) := fun st =>
  (Return (TESTS_DIR st !! path), st).

Definition print (l : line) : M unit := fun st =>
  (Return tt, mkState (DATA_DIR st) (CUSTOM_DIR st) (TESTS_DIR st) (stdout st ++ [l])
                (pytest_runs st)).

Definition sys_exit {A} (code : Z) : M A := fun st => (SysExit code, st).

(** A call that may raise: the exception is not caught by the agent. *)
Definition call {A} (r : Py.result A) : M A := fun st =>
  match r with
  | Py.Done a => (Return a, st)
  | Py.Raised e => (Uncaught e, st)
  end.

(** The status the process ends with. *)
Definition exit_status {A} (o : outcome A) : Z :=
  match o with
  | Return _ => 0
  | SysExit code => code
  | Uncaught _ => 1
  end.

Definition parser_path (target : string) : string := (target ++ "_parser.py")%string.
Definition test_path (target : string) : string := ("test_" ++ target ++ "_parser.py")%string.

Definition infer_expected_columns (f : csv) : list string := csv_columns f.

(** [path.write_text(content)] under [custom_parser/] and under [tests/]:
    the file is created or replaced. *)
Definition write_parser_text (path : string) (content : file) : M unit := fun st =>
  (Return tt, mkState (DATA_DIR st) (<[path := content]> (CUSTOM_DIR st)) (TESTS_DIR st)
                (stdout st) (pytest_runs st)).

Definition write_test_text (path : string) (content : file) : M unit := fun st =>
  (Return tt, mkState (DATA_DIR st) (CUSTOM_DIR st) (<[path := content]> (TESTS_DIR st))
                (stdout st) (pytest_runs st)).

(** [PARSER_TEMPLATE.format(target=target, expected_columns=expected_columns)] *)
Definition PARSER_TEMPLATE_format (target : string) (expected_columns : list string)
    : Py.result file :=
  Py.format PARSER_TEMPLATE
    [("target", Py.VStr target); ("expected_columns", Py.VList expected_columns)].

(** [TEST_TEMPLATE.format(target=target)] *)
Definition TEST_TEMPLATE_format (target : string) : Py.result file :=
  Py.format TEST_TEMPLATE [("target", Py.VStr target)].

Definition write_parser (target : string) (expected_columns : list string) : M string :=
  let path := parser_path target in
  let! content := call (PARSER_TEMPLATE_format target expected_columns) in
  do! write_parser_text path content in
  do! print (WroteParser path) in
  ret path.

Definition write_test (target : string) : M string :=
  let path := test_path target in
  let! content := call (TEST_TEMPLATE_format target) in
  do! write_test_text path content in
  do! print (WroteTest path) in
  ret path.

Section Loop.

(** Whether the [n]-th [pytest] subprocess ends with status 0
    ([subprocess.run(cmd, check=True)] does not raise). *)
Variable pytest : nat → bool.

Definition subprocess_run : M bool := fun st =>
  (Return (pytest (pytest_runs st)),
   mkState (DATA_DIR st) (CUSTOM_DIR st) (TESTS_DIR st) (stdout st) (S (pytest_runs st))).

Definition run_pytest_for_target (target : string) : M bool :=
  let! test_file := read_test (test_path target) in
  match test_file with
  | None => do! print TestFileMissing in ret false
  | Some _ =>
      let! ok := subprocess_run in
      if ok then do! print PytestPassed in ret true
      else do! print PytestFailed in ret false
  end.

(** The [for attempt in range(1, max_attempts + 1)] loop over the attempts
    still to make; [true] when it was left through [break]. *)
Fixpoint attempts_loop (target : string) (expected_cols : list string)
    (max_attempts : nat) (attempts : list nat) : M bool :=
  match attempts with
  | [] => ret false
  | attempt :: rest =>
      do! print (Attempt attempt max_attempts) in
      do! write_parser target expected_cols in
      let! passed := run_pytest_for_target target in
      if passed then do! print (Success attempt) in ret true
      else do! print SelfFix in attempts_loop target expected_cols max_attempts rest
  end.

Definition main (arg_target : string) : M unit :=
  let target := Py.lower (Py.strip arg_target) in
  let! data_folder := read_folder target in
  match data_folder with
  | None => do! print (ErrorNoFolder target) in sys_exit 2
  | Some data_folder =>
      match sample_pdf data_folder, expected_csv data_folder with
      | Some _, Some csv_file =>
          let expected_cols := infer_expected_columns csv_file in
          do! print (ExpectedColumns expected_cols) in
          do! write_test target in
          let max_attempts := 3 in
          let! broke := attempts_loop target expected_cols max_attempts (seq 1 max_attempts) in
          if broke then ret tt
          else do! print Failed in sys_exit 1
      | _, _ => do! print (ErrorRequireFiles target) in sys_exit 2
      end
  end.

End Loop.

End Agent.

(** * Vocabulary of the properties *)

Module Spec.
Import Difflib Agent.

(** ** Matching *)

(** A block lies inside both sequences and the two slices agree. *)
Definition block_ok (a b : list ascii) (m : block) : Prop :=
  let '(i, j, k) := m in
  i + k ≤ length a ∧ j + k ≤ length b ∧ take k (drop i a) = take k (drop j b).

(** ** Frames *)

(** The entries of [r] under one label. *)
Definition pick {A} (cols : list string) (r : list A) (k : string) : list A :=
  snd <$> filter (fun p => p.1 = k) (zip cols r).

(** The labels [ensure_columns] appends to [cols], in order. *)
Fixpoint missing (cols keys : list string) : list string :=
  match keys with
  | [] => []
  | k :: keys =>
      if decide (k ∈ cols) then missing cols keys else k :: missing (cols ++ [k]) keys
  end.

(** [rename] on the labels. *)
Definition rename_labels (mapping : gmap string string) (cols : list string) : list string :=
  (fun c => default c (mapping !! c)) <$> cols.

Section Mapping.

Variable EXPECTED_COLUMNS : list string.

(** Every entry of the mapping records a match found among the labels, for
    an expected column. *)
Definition mapping_ok (cols : list string) (mapping : gmap string string) : Prop :=
  ∀ c e, mapping !! c = Some e →
         get_close_matches e cols = [c] ∧ e ∈ EXPECTED_COLUMNS.

(** The labels of the frame just before the final projection. *)
Definition labels_before_projection (t : RawTable) : list string :=
  let cols0 := normalize_label <$> columns (table_frame t) in
  let cols1 := rename_labels (close_mapping EXPECTED_COLUMNS cols0) cols0 in
  cols1 ++ missing cols1 EXPECTED_COLUMNS.

Definition rows_before_projection (t : RawTable) : list (list cell) :=
  let cols0 := normalize_label <$> columns (table_frame t) in
  let cols1 := rename_labels (close_mapping EXPECTED_COLUMNS cols0) cols0 in
  (fun r => r ++ replicate (length (missing cols1 EXPECTED_COLUMNS)) CNA)
    <$> rows (table_frame t).

End Mapping.

(** The data rows do not fit the header: there are data rows and the widest
    of them has not the width of the header.  This is when
    [pd.DataFrame(rows, columns=header)] raises. *)
Definition structural_mismatch (t : RawTable) : Prop :=
  tail t ≠ [] ∧ max_list (length <$> tail t) ≠ length (hd [] t).

#[global] Instance structural_mismatch_dec t : Decision (structural_mismatch t).
Proof. unfold structural_mismatch. apply _. Defined.

(** The cells of a row under the labels [done_] stripped, the others kept. *)
Definition stripped (done_ cols : list string) (r : list cell) : list cell :=
  zip_with (fun lbl x => if decide (lbl ∈ done_) then str_strip x else x) cols r.

(** ** Text *)

Fixpoint all_space (s : string) : bool :=
  match s with
  | EmptyString => true
  | String c s' => Py.isspace c && all_space s'
  end.

Fixpoint ends_with_space (s : string) : bool :=
  match s with
  | EmptyString => false
  | String c EmptyString => Py.isspace c
  | String _ s' => ends_with_space s'
  end.

(** No separator inside: no TAB, and no whitespace character followed by
    another. *)
Fixpoint separator_free (s : string) : bool :=
  match s with
  | EmptyString => true
  | String c s' =>
      if Py.isspace c
      then negb (Ascii.eqb c Py.TAB) && negb (Py.starts_with_space s') && separator_free s'
      else separator_free s'
  end.

(** A token: not empty, no separator inside, no whitespace at its ends. *)
Definition token (tok : string) : Prop :=
  tok ≠ "" ∧ separator_free tok = true
  ∧ Py.starts_with_space tok = false ∧ ends_with_space tok = false.

(** A separator: a lone TAB, or two or more whitespace characters. *)
Definition separator (sep : string) : Prop :=
  sep = String Py.TAB "" ∨ (all_space sep = true ∧ (2 ≤ String.length sep)%nat).

(** The line read as tokens with separators between them. *)
Inductive splits : string → list string → Prop :=
  | splits_last tok : token tok → splits tok [tok]
  | splits_sep tok sep rest toks :
      token tok → separator sep → splits rest toks →
      splits (tok ++ sep ++ rest)%string (tok :: toks).

(** The piece collected so far, and how it meets the rest of the line. *)
Definition collecting (tok s : string) : Prop :=
  separator_free tok = true ∧ Py.starts_with_space tok = false
  ∧ (tok = "" → Py.starts_with_space s = false)
  ∧ (ends_with_space tok = true → Py.starts_with_space s = false).

(** ** The extractor in the words of its description *)

(** The structured table of a page when it has rows; the stripped non-empty
    text lines of a page; the one table a page contributes, if any. *)
Definition structured_table (p : page) : option RawTable :=
  match extract_table p with
  | Some [] | None => None
  | Some t => Some t
  end.

Definition text_lines (p : page) : list string :=
  match extract_text p with
  | Some text => filter (fun line => line ≠ EmptyString) (Py.strip <$> Py.splitlines text)
  | None => []
  end.

Definition page_table (p : page) : option RawTable :=
  match structured_table p with
  | Some t => Some t
  | None =>
      match text_lines p with
      | [] => None
      | lines => Some (Py.re_split_cols <$> lines)
      end
  end.

(** ** The agent *)

(** The test file [write_test] leaves for a target. *)
Definition test_file (target : string) : file :=
  match TEST_TEMPLATE_format target with
  | Py.Done text => text
  | Py.Raised _ => []
  end.

Definition is_attempt (l : line) : bool :=
  match l with
  | Attempt _ _ => true
  | _ => false
  end.

(** Number of attempts announced on the output. *)
Definition attempt_lines (out : list line) : nat :=
  length (filter (fun l => is_attempt l = true) out).

Definition inputs_present (st : state) (target : string) : Prop :=
  ∃ pdf golden, DATA_DIR st !! target = Some (mkFolder (Some pdf) (Some golden)).

Definition inputs_missing (st : state) (target : string) : Prop :=
  DATA_DIR st !! target = None
  ∨ ∃ f, DATA_DIR st !! target = Some f ∧ (sample_pdf f = None ∨ expected_csv f = None).

(** ** Examples *)

Definition example_schema : list string := ["date"; "description"; "amount"].

Definition example_table : RawTable :=
  [["date"; "description"; "amount"]; ["2024-01-01"; "Coffee"; "3.50"]].

(** A table whose only data row is wider than its header. *)
Definition example_wide_table : RawTable :=
  [["Date"; "Desc"]; ["2024-01-01"; "Coffee"; "3.50"]].

(** A table with a data row narrower than its header and one as wide. *)
Definition example_short_row_table : RawTable :=
  [["a"; "b"]; ["1"]; ["2"; "3"]].

Definition example_page : page :=
  mkPage (Some [["Date"; "Desc"; "Amt"]; ["2024-01-01"; " Coffee "; "3.50"]]) None.

Definition example_aligned : DataFrame :=
  mkDataFrame example_schema [[CStr "2024-01-01"; CNA; CNA]].

Definition example_text_page : page :=
  mkPage None
    (Some ("Date   Desc" ++ String Py.TAB "Amount" ++ String Py.LF "  "
           ++ String Py.LF "2024-01-01  Coffee shop   3.50  ")%string).

(** An example world: the folder of one target with both files, and the
    same folder without the golden table. *)
Definition example_golden : csv :=
  mkCsv ["date"; "description"; "amount"] [["2024-01-01"; "Coffee"; "3.50"]].

Definition example_state : state :=
  mkState {[ "icici" := mkFolder (Some [example_page]) (Some example_golden) ]} ∅ ∅ [] 0.

Definition example_state_no_csv : state :=
  mkState {[ "icici" := mkFolder (Some [example_page]) None ]} ∅ ∅ [] 0.

(** A schema of two columns. *)
Definition example_short_schema : list string := ["date"; "amount"].

(** A table whose header is that schema and whose data row is wider. *)
Definition example_schema_header_wide_row : RawTable :=
  [["date"; "amount"]; ["2024-01-01"; "3.50"; "x"]].

(** Two frames aligned to [example_schema], from a table that lacks two of
    its columns and from one that has them all. *)
Definition example_first_table : RawTable :=
  [["Date"; "Desc"; "Amt"]; ["2024-01-01"; " Coffee "; "3.50"]].

Definition example_second_table : RawTable :=
  [["date"; "description"; "amount"]; ["2024-01-02"; "Tea"; "2.00"]; ["2024-01-03"; "Bun"]].

(** A document of three pages, the second without content, and what [parse]
    makes of it. *)
Definition example_document : list page :=
  [mkPage (Some example_first_table) None; mkPage None None;
   mkPage (Some example_second_table) None].

Definition example_parsed : DataFrame :=
  mkDataFrame example_schema
    [[CStr "2024-01-01"; CStr "nan"; CStr "nan"];
     [CStr "2024-01-02"; CStr "Tea"; CStr "2.00"];
     [CStr "2024-01-03"; CStr "Bun"; CStr "None"]].

(** ** The parsed frame *)

(** The labels of the frame of [t] once normalized and renamed. *)
Definition renamed_labels (EXPECTED_COLUMNS : list string) (t : RawTable) : list string :=
  let cols0 := normalize_label <$> columns (table_frame t) in
  rename_labels (close_mapping EXPECTED_COLUMNS cols0) cols0.

(** How many columns carry the label [k]. *)
Definition carriers (k : string) (cols : list string) : nat :=
  length (filter (fun lbl => lbl = k) cols).

(** No expected column is carried by two columns of the renamed frame. *)
Definition unambiguous (EXPECTED_COLUMNS : list string) (t : RawTable) : Prop :=
  ∀ k, k ∈ EXPECTED_COLUMNS → carriers k (renamed_labels EXPECTED_COLUMNS t) ≤ 1.

(** The rows of the aligned frame of [t]. *)
Definition aligned_rows (EXPECTED_COLUMNS : list string) (t : RawTable) : list (list cell) :=
  select (labels_before_projection EXPECTED_COLUMNS t) EXPECTED_COLUMNS
    <$> rows_before_projection EXPECTED_COLUMNS t.

(** The aligned frame of [t]. *)
Definition aligned_frame (EXPECTED_COLUMNS : list string) (t : RawTable) : DataFrame :=
  mkDataFrame
    (select (labels_before_projection EXPECTED_COLUMNS t) EXPECTED_COLUMNS
       (labels_before_projection EXPECTED_COLUMNS t))
    (aligned_rows EXPECTED_COLUMNS t).

(** The rows of frames with equal columns as [pd.concat] stacks them. *)
Definition stacked (frames : list DataFrame) : list (list cell) :=
  match frames with
  | [f] => rows f
  | _ => mjoin (refilled <$> frames)
  end.

(** The rows of the tables, aligned, stacked in order and cleaned. *)
Definition parsed_rows (EXPECTED_COLUMNS : list string) (tables : list RawTable)
    : list (list cell) :=
  (fun r : list cell => str_strip <$> r)
    <$> stacked (aligned_frame EXPECTED_COLUMNS <$> tables).

(** The rows a table contributes: its data rows, or all its rows when the
    data rows do not fit the header. *)
Definition row_count (t : RawTable) : nat :=
  if decide (structural_mismatch t) then length t else length (tail t).

(** A cell as the cleanup leaves it: text without whitespace at its ends. *)
Definition clean (x : cell) : Prop := ∃ s, x = CStr s ∧ Py.strip s = s.

(** ** Labels *)

(** Whitespace in normal form: every whitespace character is a SPACE and is
    not followed by another. *)
Fixpoint spaced (s : string) : bool :=
  match s with
  | EmptyString => true
  | String c s' =>
      (if Py.isspace c then Ascii.eqb c " " && negb (Py.starts_with_space s') else true)
      && spaced s'
  end.

(** ** The files of a run *)

(** The three directories of two states agree. *)
Definition same_files (st1 st2 : state) : Prop :=
  DATA_DIR st1 = DATA_DIR st2 ∧ CUSTOM_DIR st1 = CUSTOM_DIR st2
  ∧ TESTS_DIR st1 = TESTS_DIR st2.

End Spec.

(** * Properties *)

(** ** [difflib]: an exact match is the best match *)

Module DifflibFacts.
Import Difflib Spec.

Lemma common_prefix_le_l a b : common_prefix a b ≤ length a.
Proof.
  revert b. induction a as [|x a IH]; intros [|y b]; simpl; try lia.
  destruct (Ascii.eqb x y); [specialize (IH b)|]; lia.
Qed.

Lemma common_prefix_le_r a b : common_prefix a b ≤ length b.
Proof.
  revert b. induction a as [|x a IH]; intros [|y b]; simpl; try lia.
  destruct (Ascii.eqb x y); [specialize (IH b)|]; lia.
Qed.

Lemma common_prefix_take a b :
  take (common_prefix a b) a = take (common_prefix a b) b.
Proof.
  revert b. induction a as [|x a IH]; intros [|y b]; simpl; try done.
  destruct (Ascii.eqb x y) eqn:Hxy; [|done].
  apply Ascii.eqb_eq in Hxy as ->. simpl. by rewrite IH.
Qed.

Lemma common_prefix_refl a : common_prefix a a = length a.
Proof. induction a as [|x a IH]; simpl; [done|]. by rewrite Ascii.eqb_refl, IH. Qed.

Lemma drop_cons_inv {A} (l : list A) n x l' :
  drop n l = x :: l' → drop (S n) l = l' ∧ n < length l.
Proof.
  revert n. induction l as [|y l IH]; intros [|n]; simpl; try done.
  - intros [= -> ->]. split; [by rewrite drop_0|lia].
  - intros H. destruct (IH _ H). split; [done|lia].
Qed.

Lemma scan_b_ok a b asuf i bsuf j best :
  asuf = drop i a → i ≤ length a → bsuf = drop j b →
  block_ok a b best → block_ok a b (scan_b asuf bsuf i j best).
Proof.
  intros -> Hi. revert j best. induction bsuf as [|y bsuf IH]; intros j best Hb Hbest.
  { done. }
  symmetry in Hb. destruct (drop_cons_inv _ _ _ _ Hb) as [Hb' Hj].
  simpl. apply IH; [done|].
  destruct (block_size best <? _); [|done].
  pose proof (common_prefix_le_l (drop i a) (y :: bsuf)) as Hl.
  pose proof (common_prefix_le_r (drop i a) (y :: bsuf)) as Hr.
  rewrite length_drop in Hl. simpl in Hr.
  assert (length bsuf = length b - S j) as Hlen by (by rewrite <-Hb', length_drop).
  unfold block_ok. split_and!; [lia|lia|].
  rewrite Hb. apply common_prefix_take.
Qed.

Lemma scan_a_ok a b asuf i best :
  asuf = drop i a → block_ok a b best → block_ok a b (scan_a asuf b i best).
Proof.
  revert i best. induction asuf as [|x asuf IH]; intros i best Ha Hbest; [done|].
  symmetry in Ha. destruct (drop_cons_inv _ _ _ _ Ha) as [Ha' Hi].
  simpl. apply IH; [done|].
  apply scan_b_ok; [done|lia|by rewrite drop_0|done].
Qed.

Lemma find_longest_match_ok a b : block_ok a b (find_longest_match a b).
Proof.
  apply scan_a_ok; [by rewrite drop_0|].
  unfold block_ok. simpl. split_and!; [lia|lia|by rewrite !take_0].
Qed.

Lemma scan_b_keep asuf bsuf i j best :
  length asuf ≤ block_size best → scan_b asuf bsuf i j best = best.
Proof.
  revert j. induction bsuf as [|y bsuf IH]; intros j Hbest; simpl; [done|].
  pose proof (common_prefix_le_l asuf (y :: bsuf)).
  destruct (block_size best <? _) eqn:Hlt; [apply Nat.ltb_lt in Hlt; lia|].
  by apply IH.
Qed.

Lemma scan_a_keep asuf b i best :
  length asuf ≤ block_size best → scan_a asuf b i best = best.
Proof.
  revert i. induction asuf as [|x asuf IH]; intros i Hbest; simpl; [done|].
  rewrite scan_b_keep by done. apply IH. simpl in Hbest. lia.
Qed.

(** A non-empty sequence matched against itself: one block, the whole. *)
Lemma find_longest_match_refl a :
  a ≠ [] → find_longest_match a a = (0, 0, length a).
Proof.
  destruct a as [|x a]; [done|]. intros _.
  unfold find_longest_match. cbn [scan_a scan_b].
  rewrite common_prefix_refl. cbn [block_size snd length].
  rewrite scan_b_keep by (simpl; lia).
  rewrite scan_a_keep by (simpl; lia). done.
Qed.

(** The fuel given by [matches] is enough: more changes nothing. *)
Lemma matching_fuel n m a b :
  length a < n → length a < m → matching n a b = matching m a b.
Proof.
  revert m a b. induction n as [|n IH]; intros [|m] a b Hn Hm; try lia.
  simpl. pose proof (find_longest_match_ok a b) as Hok.
  destruct (find_longest_match a b) as [[i j] k]. destruct Hok as (Hi & Hj & _).
  destruct (k =? 0) eqn:Hk; [done|]. apply Nat.eqb_neq in Hk.
  rewrite (IH m (take i a)), (IH m (drop (i + k) a)); try done.
  all: rewrite ?length_take, ?length_drop; lia.
Qed.

Lemma matching_bound n a b :
  matching n a b ≤ length a ∧ matching n a b ≤ length b
  ∧ (matching n a b = length a → matching n a b = length b → a = b).
Proof.
  revert a b. induction n as [|n IH]; intros a b.
  { simpl. split_and!; [lia|lia|].
    intros Ha Hb. symmetry in Ha, Hb.
    apply length_zero_iff_nil in Ha, Hb. by subst. }
  simpl. pose proof (find_longest_match_ok a b) as Hok.
  destruct (find_longest_match a b) as [[i j] k]. destruct Hok as (Hi & Hj & Hmid).
  destruct (k =? 0) eqn:Hk.
  { split_and!; [lia|lia|].
    intros Ha Hb. symmetry in Ha, Hb.
    apply length_zero_iff_nil in Ha, Hb. by subst. }
  destruct (IH (take i a) (take j b)) as (Hl1 & Hl2 & Hleq).
  destruct (IH (drop (i + k) a) (drop (j + k) b)) as (Hr1 & Hr2 & Hreq).
  rewrite !length_take in Hl1, Hl2, Hleq. rewrite !length_drop in Hr1, Hr2, Hreq.
  split_and!; [lia|lia|].
  intros Ha Hb.
  assert (i = j) as <- by lia.
  rewrite <-(take_drop i a), <-(take_drop i b).
  rewrite <-(take_drop k (drop i a)), <-(take_drop k (drop i b)).
  rewrite !drop_drop. rewrite Hmid.
  assert (take i a = take i b) as ->
    by (apply Hleq; rewrite ?length_take, ?length_drop; lia).
  assert (drop (i + k) a = drop (i + k) b) as ->
    by (apply Hreq; rewrite ?length_take, ?length_drop; lia).
  done.
Qed.

Lemma matching_nil n b : matching n [] b = 0.
Proof. by destruct n. Qed.

Lemma matches_refl a : matches a a = length a.
Proof.
  unfold matches. destruct a as [|x a]; [done|].
  cbn [matching]. rewrite find_longest_match_refl by done.
  rewrite take_0, Nat.add_0_l, drop_all, !matching_nil. simpl. lia.
Qed.

Local Open Scope Q_scope.

Lemma ratio_le_1 a b : ratio a b <= 1.
Proof.
  unfold ratio.
  set (la := list_ascii_of_string a). set (lb := list_ascii_of_string b).
  destruct (length la + length lb =? 0)%nat eqn:HT; [apply Qle_refl|].
  apply Nat.eqb_neq in HT.
  destruct (matching_bound (S (length la)) la lb) as (H1 & H2 & _).
  unfold matches, Qle. cbn [Qnum Qden].
  rewrite Z.mul_1_r, Z.mul_1_l.
  rewrite <-positive_nat_Z, Nat2Pos.id by done.
  apply Nat2Z.inj_le. lia.
Qed.

Lemma ratio_refl a : ratio a a == 1.
Proof.
  unfold ratio. set (la := list_ascii_of_string a).
  destruct (length la + length la =? 0)%nat eqn:HT; [reflexivity|].
  apply Nat.eqb_neq in HT.
  rewrite matches_refl. unfold Qeq. cbn [Qnum Qden].
  rewrite Z.mul_1_r, Z.mul_1_l.
  rewrite <-positive_nat_Z, Nat2Pos.id by done. f_equal. lia.
Qed.

(** Only the word itself scores 1. *)
Lemma ratio_1_eq a b : 1 <= ratio a b → a = b.
Proof.
  unfold ratio.
  set (la := list_ascii_of_string a). set (lb := list_ascii_of_string b).
  intros H.
  assert (la = lb) as Heq.
  { destruct (length la + length lb =? 0)%nat eqn:HT.
    - apply Nat.eqb_eq in HT.
      assert (length la = 0%nat) as Ha by lia. assert (length lb = 0%nat) as Hb by lia.
      apply length_zero_iff_nil in Ha, Hb. congruence.
    - apply Nat.eqb_neq in HT.
      destruct (matching_bound (S (length la)) la lb) as (H1 & H2 & Heq).
      unfold matches, Qle in H. cbn [Qnum Qden] in H.
      rewrite Z.mul_1_r, Z.mul_1_l in H.
      rewrite <-positive_nat_Z, Nat2Pos.id in H by done.
      apply Nat2Z.inj_le in H. apply Heq; lia. }
  rewrite <-(string_of_list_ascii_of_string a), <-(string_of_list_ascii_of_string b).
  fold la lb. by rewrite Heq.
Qed.

Lemma tuple_gt_score x best : tuple_gt x best = true → best.1 <= x.1.
Proof.
  unfold tuple_gt. intros [H|H]%orb_true_iff.
  - apply negb_true_iff in H. destruct (Qlt_le_dec best.1 x.1) as [Hlt|Hle].
    + by apply Qlt_le_weak.
    + apply Qle_bool_iff in Hle. congruence.
  - apply andb_true_iff in H as [H _]. apply Qeq_bool_iff in H.
    rewrite H. apply Qle_refl.
Qed.

Lemma not_tuple_gt_score x best : tuple_gt x best = false → x.1 <= best.1.
Proof.
  unfold tuple_gt. intros [H _]%orb_false_iff.
  apply negb_false_iff in H. by apply Qle_bool_iff.
Qed.

Lemma fold_best_mono rs best : best.1 <= (fold_left keep_best rs best).1.
Proof.
  revert best. induction rs as [|x rs IH]; intros best; simpl; [apply Qle_refl|].
  eapply Qle_trans; [|apply IH]. unfold keep_best.
  destruct (tuple_gt x best) eqn:Hgt; [by apply tuple_gt_score|apply Qle_refl].
Qed.

Lemma fold_best_ge rs best y :
  y ∈ best :: rs → y.1 <= (fold_left keep_best rs best).1.
Proof.
  revert best. induction rs as [|x rs IH]; intros best Hy.
  { apply list_elem_of_singleton in Hy as ->. apply Qle_refl. }
  simpl. apply elem_of_cons in Hy as [->|Hy].
  - eapply Qle_trans; [|apply fold_best_mono]. unfold keep_best.
    destruct (tuple_gt x best) eqn:Hgt; [by apply tuple_gt_score|apply Qle_refl].
  - apply elem_of_cons in Hy as [->|Hy].
    + eapply Qle_trans; [|apply fold_best_mono]. unfold keep_best.
      destruct (tuple_gt x best) eqn:Hgt; [apply Qle_refl|by apply not_tuple_gt_score].
    + apply IH. by right.
Qed.

Lemma fold_best_elem rs best : fold_left keep_best rs best ∈ best :: rs.
Proof.
  revert best. induction rs as [|x rs IH]; intros best; simpl; [by left|].
  specialize (IH (keep_best best x)).
  apply elem_of_cons in IH as [->|IH].
  - unfold keep_best. destruct (tuple_gt x best); [right; left|left].
  - by do 2 right.
Qed.

Close Scope Q_scope.

Lemma elem_of_scored word possibilities p :
  p ∈ scored word possibilities ↔
  ∃ x, x ∈ possibilities ∧ p = (ratio x word, x) ∧ Qle_bool cutoff (ratio x word) = true.
Proof.
  unfold scored. rewrite list_elem_of_In, in_flat_map. split.
  - intros (x & Hx & Hp). exists x. apply list_elem_of_In in Hx.
    cbv zeta in Hp. destruct (Qle_bool cutoff (ratio x word)) eqn:Hc; [|by destruct Hp].
    destruct Hp as [<-|[]]. done.
  - intros (x & Hx & -> & Hc). exists x. split; [by apply list_elem_of_In|].
    cbv zeta. rewrite Hc. by left.
Qed.

(** [get_close_matches] returns nothing or one of the possibilities. *)
Lemma get_close_matches_cases word possibilities :
  get_close_matches word possibilities = []
  ∨ ∃ x, get_close_matches word possibilities = [x] ∧ x ∈ possibilities.
Proof.
  unfold get_close_matches. fold (scored word possibilities).
  destruct (scored word possibilities) as [|r rs] eqn:Hs; [by left|].
  right. simpl. fold keep_best.
  pose proof (fold_best_elem rs r) as Hin. rewrite <-Hs in Hin.
  apply elem_of_scored in Hin as (x & Hx & -> & _).
  exists x. done.
Qed.

(** A label equal to the word is the one returned. *)
Lemma get_close_matches_exact word possibilities :
  word ∈ possibilities → get_close_matches word possibilities = [word].
Proof.
  intros Hin. unfold get_close_matches. fold (scored word possibilities).
  assert ((ratio word word, word) ∈ scored word possibilities) as Hself.
  { apply elem_of_scored. exists word. split_and!; [done..|].
    apply Qle_bool_iff. rewrite ratio_refl. done. }
  destruct (scored word possibilities) as [|r rs] eqn:Hs.
  { by apply elem_of_nil in Hself. }
  simpl. fold keep_best.
  pose proof (fold_best_ge rs r _ Hself) as Hge. cbn [fst] in Hge.
  pose proof (fold_best_elem rs r) as Helem. rewrite <-Hs in Helem.
  apply elem_of_scored in Helem as (x & Hx & Heq & _).
  rewrite Heq in Hge |- *. cbn [fst snd] in *.
  rewrite ratio_refl in Hge. by rewrite (ratio_1_eq _ _ Hge).
Qed.

End DifflibFacts.

(** ** Frames: selection by label, added columns, renaming *)

Module ParserFacts.
Import Difflib Spec DifflibFacts.

Lemma select_pick {A} cols keys (r : list A) : select cols keys r = keys ≫= pick cols r.
Proof. done. Qed.

Lemma bind_ext_in {A B} (f g : A → list B) (l : list A) :
  (∀ x, x ∈ l → f x = g x) → l ≫= f = l ≫= g.
Proof.
  induction l as [|x l IH]; intros Hfg; [done|].
  rewrite !bind_cons, Hfg, IH; [done| |by left].
  intros y Hy. apply Hfg. by right.
Qed.

Lemma pick_cons_eq {A} cols (r : list A) k v :
  pick (k :: cols) (v :: r) k = v :: pick cols r k.
Proof. unfold pick. simpl. by rewrite filter_cons_True. Qed.

Lemma pick_cons_ne {A} cols (r : list A) c k v :
  c ≠ k → pick (c :: cols) (v :: r) k = pick cols r k.
Proof. intros Hne. unfold pick. simpl. by rewrite filter_cons_False. Qed.

Lemma pick_elem {A} cols (r : list A) k v : v ∈ pick cols r k → (k, v) ∈ zip cols r.
Proof.
  unfold pick. intros ([c w] & -> & Hin)%list_elem_of_fmap.
  apply list_elem_of_filter in Hin as [Hk Hin]. simpl in Hk. by subst.
Qed.

Lemma pick_not_elem {A} cols (r : list A) k : k ∉ cols → pick cols r k = [].
Proof.
  intros Hk. destruct (pick cols r k) as [|v l] eqn:Hp; [done|].
  assert (v ∈ pick cols r k) as Hv by (rewrite Hp; by left).
  apply pick_elem, elem_of_zip_l in Hv. done.
Qed.

(** With unique labels a present label selects exactly one entry. *)
Lemma pick_singleton {A} cols (r : list A) k :
  NoDup cols → length r = length cols → k ∈ cols → ∃ v, pick cols r k = [v].
Proof.
  revert r. induction cols as [|c cols IH]; intros r Hnd Hlen Hk.
  { by apply elem_of_nil in Hk. }
  destruct r as [|v r]; [done|]. apply NoDup_cons in Hnd as [Hc Hnd].
  destruct (decide (c = k)) as [->|Hne].
  - exists v. by rewrite pick_cons_eq, pick_not_elem.
  - rewrite pick_cons_ne by done. apply IH; [done|by simplify_eq/=|].
    apply elem_of_cons in Hk as [->|Hk]; done.
Qed.

Lemma pick_self cols k : NoDup cols → k ∈ cols → pick cols cols k = [k].
Proof.
  intros Hnd Hk. destruct (pick_singleton cols cols k) as [v Hv]; [done..|].
  assert (v ∈ pick cols cols k) as Hin by (rewrite Hv; by left).
  apply pick_elem in Hin. rewrite Hv. f_equal.
  clear -Hin. induction cols as [|c cols IH]; simpl in Hin.
  - by apply elem_of_nil in Hin.
  - apply elem_of_cons in Hin as [[= -> ->]|Hin]; [done|by apply IH].
Qed.

(** Selecting present labels from uniquely labelled columns gives exactly
    the labels asked for. *)
Lemma select_self cols keys :
  NoDup cols → (∀ k, k ∈ keys → k ∈ cols) → select cols keys cols = keys.
Proof.
  intros Hnd Hkeys. rewrite select_pick.
  rewrite (bind_ext_in _ (fun k => [k])).
  - clear. induction keys as [|k keys IH]; [done|]. by rewrite bind_cons, IH.
  - intros k Hk. apply pick_self; auto.
Qed.

(** Selecting every label in place changes nothing. *)
Lemma select_id {A} cols (r : list A) :
  NoDup cols → length r = length cols → select cols cols r = r.
Proof.
  rewrite select_pick. revert r.
  induction cols as [|c cols IH]; intros r Hnd Hlen.
  { by destruct r. }
  destruct r as [|v r]; [done|]. apply NoDup_cons in Hnd as [Hc Hnd].
  rewrite bind_cons, pick_cons_eq, pick_not_elem by done.
  rewrite (bind_ext_in _ (pick cols r)).
  - rewrite IH; [done|done|by simplify_eq/=].
  - intros k Hk. apply pick_cons_ne. by intros ->.
Qed.

Lemma select_length {A} cols keys (r : list A) :
  NoDup cols → length r = length cols → (∀ k, k ∈ keys → k ∈ cols) →
  length (select cols keys r) = length keys.
Proof.
  intros Hnd Hlen. rewrite select_pick.
  induction keys as [|k keys IH]; intros Hkeys; [done|].
  rewrite bind_cons, length_app, IH by (intros; apply Hkeys; by right).
  destruct (pick_singleton cols r k) as [v ->]; [done|done| |done].
  apply Hkeys. by left.
Qed.

Lemma select_elem {A} cols keys (r : list A) v :
  v ∈ select cols keys r → ∃ k, k ∈ keys ∧ (k, v) ∈ zip cols r.
Proof.
  rewrite select_pick. intros (k & Hv & Hk)%list_elem_of_bind.
  exists k. split; [done|]. by apply pick_elem.
Qed.

Lemma ensure_columns_spec keys df :
  ensure_columns keys df =
    mkDataFrame (columns df ++ missing (columns df) keys)
      ((fun r => r ++ replicate (length (missing (columns df) keys)) CNA) <$> rows df).
Proof.
  unfold ensure_columns. revert df.
  induction keys as [|k keys IH]; intros [cols rws]; simpl.
  { rewrite app_nil_r. f_equal.
    transitivity (id <$> rws); [by rewrite list_fmap_id|].
    apply list_fmap_ext. intros _ r _. by rewrite app_nil_r. }
  destruct (decide (k ∈ cols)) as [Hk|Hk].
  { apply IH. }
  rewrite IH. unfold setitem. simpl. rewrite decide_False by done. simpl.
  rewrite <-app_assoc. f_equal. rewrite <-list_fmap_compose.
  apply list_fmap_ext. intros _ r _. simpl. by rewrite <-app_assoc.
Qed.

Lemma missing_NoDup cols keys : NoDup cols → NoDup (cols ++ missing cols keys).
Proof.
  revert cols. induction keys as [|k keys IH]; intros cols Hnd; simpl.
  { by rewrite app_nil_r. }
  destruct (decide (k ∈ cols)) as [Hk|Hk]; [by apply IH|].
  change (cols ++ k :: missing (cols ++ [k]) keys)
    with (cols ++ [k] ++ missing (cols ++ [k]) keys).
  rewrite app_assoc. apply IH. apply NoDup_app. split_and!; [done| |apply NoDup_singleton].
  intros x Hx ->%list_elem_of_singleton. done.
Qed.

Lemma missing_covers cols keys k : k ∈ keys → k ∈ cols ++ missing cols keys.
Proof.
  revert cols. induction keys as [|k' keys IH]; intros cols Hk.
  { by apply elem_of_nil in Hk. }
  simpl. destruct (decide (k' ∈ cols)) as [Hk'|Hk'].
  - apply elem_of_cons in Hk as [->|Hk]; [|by apply IH].
    apply elem_of_app. by left.
  - change (cols ++ k' :: missing (cols ++ [k']) keys)
      with (cols ++ [k'] ++ missing (cols ++ [k']) keys).
    rewrite app_assoc.
    apply elem_of_cons in Hk as [->|Hk]; [|by apply IH].
    apply elem_of_app. left. apply elem_of_app. right. by left.
Qed.

Lemma missing_nil cols keys : (∀ k, k ∈ keys → k ∈ cols) → missing cols keys = [].
Proof.
  induction keys as [|k keys IH]; intros Hkeys; simpl; [done|].
  rewrite decide_True by (apply Hkeys; by left).
  apply IH. intros k' Hk'. apply Hkeys. by right.
Qed.

Lemma rename_if_empty df (mapping : gmap string string) :
  (if decide (mapping = ∅) then df else rename df mapping)
  = mkDataFrame (rename_labels mapping (columns df)) (rows df).
Proof.
  destruct (decide (mapping = ∅)) as [->|]; [|done].
  destruct df as [cols rws]. unfold rename_labels. simpl. f_equal.
  transitivity (id <$> cols); [by rewrite list_fmap_id|].
  apply list_fmap_ext. intros _ c _. by rewrite lookup_empty.
Qed.

Section Mapping.

Variable EXPECTED_COLUMNS : list string.

Lemma close_mapping_fold cols :
  close_mapping EXPECTED_COLUMNS cols = fold_left (mapping_step cols) EXPECTED_COLUMNS ∅.
Proof. done. Qed.

Lemma mapping_fold_ok cols keys mapping :
  (∀ k, k ∈ keys → k ∈ EXPECTED_COLUMNS) →
  mapping_ok EXPECTED_COLUMNS cols mapping → mapping_ok EXPECTED_COLUMNS cols (fold_left (mapping_step cols) keys mapping).
Proof.
  revert mapping. induction keys as [|exp keys IH]; intros mapping Hkeys Hok; [done|].
  simpl. apply IH; [intros k Hk; apply Hkeys; by right|].
  unfold mapping_step.
  destruct (get_close_matches_cases exp cols) as [->|(m & Hm & _)]; [done|].
  rewrite Hm. intros c e. rewrite lookup_insert.
  destruct (decide (m = c)) as [->|Hne]; [|apply Hok].
  intros [= <-]. split; [done|]. apply Hkeys. by left.
Qed.

Lemma close_mapping_ok cols : mapping_ok EXPECTED_COLUMNS cols (close_mapping EXPECTED_COLUMNS cols).
Proof. rewrite close_mapping_fold. by apply mapping_fold_ok. Qed.

Lemma mapping_fold_keeps cols keys mapping c :
  is_Some (mapping !! c) → is_Some (fold_left (mapping_step cols) keys mapping !! c).
Proof.
  revert mapping. induction keys as [|exp keys IH]; intros mapping Hc; [done|].
  simpl. apply IH. unfold mapping_step.
  destruct (get_close_matches exp cols) as [|m ?]; [done|].
  rewrite lookup_insert. by destruct (decide (m = c)).
Qed.

Lemma mapping_fold_matched cols keys mapping exp c :
  exp ∈ keys → get_close_matches exp cols = [c] →
  is_Some (fold_left (mapping_step cols) keys mapping !! c).
Proof.
  revert mapping. induction keys as [|k keys IH]; intros mapping Hexp Hm.
  { by apply elem_of_nil in Hexp. }
  simpl. apply elem_of_cons in Hexp as [<-|Hexp]; [|by apply IH].
  apply mapping_fold_keeps. unfold mapping_step. rewrite Hm.
  by rewrite lookup_insert_eq.
Qed.

Lemma mapping_fold_none cols keys mapping :
  (∀ exp, exp ∈ keys → get_close_matches exp cols = []) →
  fold_left (mapping_step cols) keys mapping = mapping.
Proof.
  revert mapping. induction keys as [|k keys IH]; intros mapping Hnone; [done|].
  simpl. unfold mapping_step at 2. rewrite Hnone by (by left).
  apply IH. intros exp Hexp. apply Hnone. by right.
Qed.

(** Renaming keeps unique labels unique: two labels cannot be renamed to
    one expected column, and a label equal to an expected column is the
    match of that column. *)
Lemma rename_labels_NoDup cols mapping :
  NoDup cols → mapping_ok EXPECTED_COLUMNS cols mapping → NoDup (rename_labels mapping cols).
Proof.
  intros Hnd Hok. apply NoDup_fmap_2_strong; [|done].
  intros x y Hx Hy.
  destruct (mapping !! x) as [e1|] eqn:H1, (mapping !! y) as [e2|] eqn:H2; simpl.
  - intros <-. destruct (Hok _ _ H1) as [Hm1 _], (Hok _ _ H2) as [Hm2 _]. congruence.
  - intros ->. destruct (Hok _ _ H1) as [Hm1 _].
    rewrite (get_close_matches_exact y cols Hy) in Hm1. congruence.
  - intros <-. destruct (Hok _ _ H2) as [Hm2 _].
    rewrite (get_close_matches_exact x cols Hx) in Hm2. congruence.
  - done.
Qed.

(** [align] never raises: every expected column is present when the frame
    is projected. *)
Lemma align_ok (t : RawTable) :
  align EXPECTED_COLUMNS t =
    Ok (mkDataFrame
          (select (labels_before_projection EXPECTED_COLUMNS t) EXPECTED_COLUMNS (labels_before_projection EXPECTED_COLUMNS t))
          (select (labels_before_projection EXPECTED_COLUMNS t) EXPECTED_COLUMNS <$> rows_before_projection EXPECTED_COLUMNS t)).
Proof.
  unfold align. cbv zeta. rewrite rename_if_empty, ensure_columns_spec.
  cbn [columns rows set_columns]. fold (labels_before_projection EXPECTED_COLUMNS t).
  unfold getitem. cbn [columns rows].
  rewrite decide_True; [done|].
  apply Forall_forall. intros k Hk. by apply missing_covers.
Qed.

Lemma align_never_raises (t : RawTable) : ∃ df, align EXPECTED_COLUMNS t = Ok df.
Proof. eexists. apply align_ok. Qed.

Lemma labels_before_projection_NoDup t :
  NoDup (normalize_label <$> columns (table_frame t)) →
  NoDup (labels_before_projection EXPECTED_COLUMNS t).
Proof.
  intros Hnd. apply missing_NoDup, rename_labels_NoDup; [done|apply close_mapping_ok].
Qed.

(** With pairwise distinct normalized labels the aligned frame carries
    exactly the expected columns. *)
Lemma align_columns_NoDup t :
  NoDup (normalize_label <$> columns (table_frame t)) →
  ∃ df, align EXPECTED_COLUMNS t = Ok df ∧ columns df = EXPECTED_COLUMNS.
Proof.
  intros Hnd. eexists. split; [apply align_ok|]. cbn [columns].
  apply select_self; [by apply labels_before_projection_NoDup|].
  intros k Hk. by apply missing_covers.
Qed.

End Mapping.

(** ** The frame built from one table *)

Lemma DataFrame_of_rows_raises data header :
  (∃ e, DataFrame_of_rows data header = Raise e)
  ↔ data ≠ [] ∧ max_list (length <$> data) ≠ length header.
Proof.
  unfold DataFrame_of_rows. destruct data as [|r data].
  { split; [by intros [e ?]|by intros [? _]]. }
  destruct (decide (length header = max_list (length <$> r :: data))) as [Heq|Hne].
  - split; [by intros [e ?]|]. intros [_ H]. by rewrite Heq in H.
  - split; [|by eauto]. intros _. split; [done|]. by intros Heq.
Qed.

Lemma table_frame_mismatch t : structural_mismatch t → table_frame t = raw_frame t.
Proof.
  intros Hm. apply DataFrame_of_rows_raises in Hm as [e He].
  unfold table_frame. by rewrite He.
Qed.

Lemma table_frame_fits t :
  ¬ structural_mismatch t →
  table_frame t = mkDataFrame (hd [] t) (pad (length (hd [] t)) <$> tail t).
Proof.
  intros Hm. unfold table_frame, DataFrame_of_rows.
  destruct (tail t) as [|r data] eqn:Ht; [done|].
  destruct (decide (length (hd [] t) = max_list (length <$> r :: data))) as [Heq|Hne].
  - by rewrite Heq.
  - destruct Hm. unfold structural_mismatch. rewrite Ht. split; [done|]. by intros Heq.
Qed.

Lemma length_pad k r : length r ≤ k → length (pad k r) = k.
Proof. intros Hk. unfold pad. rewrite length_app, length_fmap, length_replicate. lia. Qed.

Lemma pad_full k r : length r = k → pad k r = CStr <$> r.
Proof. intros <-. unfold pad. by rewrite Nat.sub_diag, app_nil_r. Qed.

Lemma table_frame_well_formed t : well_formed (table_frame t).
Proof.
  destruct (decide (structural_mismatch t)) as [Hm|Hm].
  - rewrite table_frame_mismatch by done. unfold well_formed, raw_frame. simpl.
    apply Forall_fmap, Forall_forall. done.
  - rewrite table_frame_fits by done. unfold well_formed. simpl.
    apply Forall_fmap, Forall_forall. intros r Hr. simpl.
    apply length_pad.
    destruct (tail t) as [|r0 data] eqn:Ht; [by apply elem_of_nil in Hr|].
    assert (length (hd [] t) = max_list (length <$> r0 :: data)) as ->.
    { destruct (decide (length (hd [] t) = max_list (length <$> r0 :: data))); [done|].
      destruct Hm. unfold structural_mismatch. rewrite Ht. split; [done|]. by intros Heq. }
    apply max_list_elem_of_le, list_elem_of_fmap. by exists r.
Qed.

Lemma table_frame_rectangular t :
  Forall (fun r => length r = length (hd [] t)) (tail t) →
  table_frame t = mkDataFrame (hd [] t) ((fun r : list string => CStr <$> r) <$> tail t).
Proof.
  intros Hall. rewrite table_frame_fits.
  - f_equal. apply list_fmap_ext. intros i r Hr. apply pad_full.
    by apply (proj1 (Forall_lookup _ _) Hall i).
  - intros [Hne Hw]. apply Hw.
    destruct (tail t) as [|r data]; [done|].
    pose proof (max_list_elem_of (length <$> r :: data)) as Hin.
    apply list_elem_of_fmap in Hin as (r' & -> & Hr'); [|done].
    by apply (proj1 (Forall_forall _ _) Hall).
Qed.

Lemma Forall2_fmap_same {A B} (P : A → B → Prop) (g : A → B) (l : list A) :
  (∀ x, P x (g x)) → Forall2 P l (g <$> l).
Proof. intros HP. induction l; constructor; auto. Qed.

Lemma bind_const {A B} (l : list A) (v : B) : l ≫= (fun _ => [v]) = (fun _ => v) <$> l.
Proof. induction l as [|x l IH]; [done|]. by rewrite bind_cons, IH. Qed.

(** ** The align step *)

(** C1 at a table with a repeated label: both columns labelled "Date" are
    renamed to "date" and the projection keeps the two of them, so the
    aligned frame has three columns for a schema of two. *)
Theorem align_duplicate_labels :
  align ["date"; "amount"]
    [["Date"; "Date"; "Amount"]; ["2024-01-01"; "2024-01-02"; "3.50"]]
  = Ok (mkDataFrame ["date"; "date"; "amount"]
          [[CStr "2024-01-01"; CStr "2024-01-02"; CStr "3.50"]]).
Proof. vm_compute. reflexivity. Qed.

(** C9, as amended: a table whose normalized header row is the schema and
    whose data rows fit that header (the widest is as wide as the header) is
    aligned to the frame built from it: every expected column matches itself
    and is mapped to itself, no label changes, no column is added, and the
    rows are the data rows, cell for cell when they are as wide as the
    header, a narrower one completed with [None]. *)
Theorem align_labels_equal_schema (EXPECTED_COLUMNS : list string) (t : RawTable) :
  NoDup EXPECTED_COLUMNS →
  normalize_label <$> hd [] t = EXPECTED_COLUMNS →
  ¬ structural_mismatch t →
  align EXPECTED_COLUMNS t
  = Ok (mkDataFrame EXPECTED_COLUMNS (pad (length EXPECTED_COLUMNS) <$> tail t))
  ∧ (∀ exp, exp ∈ EXPECTED_COLUMNS →
       get_close_matches exp EXPECTED_COLUMNS = [exp]
       ∧ close_mapping EXPECTED_COLUMNS EXPECTED_COLUMNS !! exp = Some exp)
  ∧ (Forall (fun r => length r = length (hd [] t)) (tail t) →
       align EXPECTED_COLUMNS t
       = Ok (mkDataFrame EXPECTED_COLUMNS ((fun r : list string => CStr <$> r) <$> tail t))).
Proof.
  intros Hnd Hhd Hfit.
  pose proof (table_frame_fits t Hfit) as Hframe.
  assert (length (hd [] t) = length EXPECTED_COLUMNS) as Hlen
    by (by rewrite <-Hhd, length_fmap).
  assert (normalize_label <$> columns (table_frame t) = EXPECTED_COLUMNS) as Hcols
    by (by rewrite Hframe).
  assert (∀ exp, exp ∈ EXPECTED_COLUMNS →
            close_mapping EXPECTED_COLUMNS EXPECTED_COLUMNS !! exp = Some exp) as Hmap.
  { intros exp Hexp.
    destruct (mapping_fold_matched EXPECTED_COLUMNS EXPECTED_COLUMNS ∅ exp exp Hexp
                (get_close_matches_exact _ _ Hexp)) as [e He].
    rewrite close_mapping_fold, He. f_equal.
    destruct (close_mapping_ok EXPECTED_COLUMNS EXPECTED_COLUMNS exp e) as [Hm Hin];
      [by rewrite close_mapping_fold|].
    rewrite (get_close_matches_exact _ _ Hin) in Hm. congruence. }
  assert (align EXPECTED_COLUMNS t
          = Ok (mkDataFrame EXPECTED_COLUMNS (pad (length EXPECTED_COLUMNS) <$> tail t)))
    as Halign.
  { rewrite align_ok. unfold labels_before_projection, rows_before_projection.
    cbv zeta. rewrite Hcols.
    assert (rename_labels (close_mapping EXPECTED_COLUMNS EXPECTED_COLUMNS) EXPECTED_COLUMNS
            = EXPECTED_COLUMNS) as ->.
    { unfold rename_labels.
      transitivity (id <$> EXPECTED_COLUMNS); [|apply list_fmap_id].
      apply list_fmap_ext. intros i c Hc. rewrite Hmap; [done|].
      by apply list_elem_of_lookup_2 in Hc. }
    rewrite missing_nil by done. rewrite app_nil_r. f_equal. f_equal.
    + by apply select_self.
    + rewrite Hframe. cbn [rows]. rewrite Hlen, <-!list_fmap_compose.
      apply list_fmap_ext. intros i r Hr. simpl. rewrite app_nil_r.
      apply select_id; [done|].
      pose proof (table_frame_well_formed t) as Hwf. rewrite Hframe in Hwf.
      unfold well_formed in Hwf. cbn [rows columns] in Hwf.
      apply Forall_fmap in Hwf.
      pose proof (proj1 (Forall_lookup _ _) Hwf i r Hr) as Hr'. simpl in Hr'.
      rewrite <-Hlen. exact Hr'. }
  split_and!; [done| |].
  - intros exp Hexp. split; [by apply get_close_matches_exact|by apply Hmap].
  - intros Hfull. rewrite Halign. do 2 f_equal.
    apply Forall_fmap_ext_1. eapply Forall_impl; [exact Hfull|].
    intros r Hr. simpl in Hr. apply pad_full. by rewrite Hr.
Qed.

(** C6, as amended: when the data rows do not fit the header (the widest
    one has not the header's width) [align] does not raise: the frame is the
    one-column fallback, the result has exactly the expected columns and one
    row per row of the table, and each of its cells is the null sentinel or
    that row's cells joined by single spaces. *)
Theorem align_mismatch_fallback (EXPECTED_COLUMNS : list string) (t : RawTable) :
  structural_mismatch t →
  table_frame t = raw_frame t
  ∧ ∃ df, align EXPECTED_COLUMNS t = Ok df
          ∧ columns df = EXPECTED_COLUMNS
          ∧ Forall2 (fun r row =>
                       length row = length EXPECTED_COLUMNS
                       ∧ Forall (fun c => c = CNA ∨ c = CStr (Py.join_space r)) row)
              t (rows df).
Proof.
  intros Hm. pose proof (table_frame_mismatch t Hm) as Hraw. split; [done|].
  assert (NoDup (normalize_label <$> columns (table_frame t))) as Hnd.
  { rewrite Hraw. simpl. apply NoDup_singleton. }
  pose proof (labels_before_projection_NoDup EXPECTED_COLUMNS t Hnd) as Hnd'.
  eexists. split; [apply align_ok|]. cbn [columns rows]. split.
  { apply select_self; [done|]. intros k Hk. by apply missing_covers. }
  unfold rows_before_projection. cbv zeta. rewrite Hraw. cbn [rows raw_frame columns].
  rewrite <-!list_fmap_compose. apply Forall2_fmap_same. intros r. unfold compose. split.
  - apply select_length; [done| |intros k Hk; by apply missing_covers].
    unfold labels_before_projection. cbv zeta. rewrite Hraw. cbn [columns raw_frame].
    rewrite !length_app, length_replicate. unfold rename_labels. by rewrite !length_fmap.
  - apply Forall_forall. intros v (k & _ & Hv)%select_elem.
    apply elem_of_zip_r in Hv. apply elem_of_cons in Hv as [->|Hv]; [by right|].
    left. by apply elem_of_replicate_inv in Hv.
Qed.

(** C10: in the fallback the frame has the single column "raw" with one
    cell per row of the table, the header row included; when no expected
    column is a close match of "raw", that column is dropped by the
    projection and every cell of the aligned frame is the null sentinel. *)
Theorem align_raw_fallback_all_null (EXPECTED_COLUMNS : list string) (t : RawTable) :
  structural_mismatch t →
  (∀ exp, exp ∈ EXPECTED_COLUMNS → get_close_matches exp ["raw"] = []) →
  table_frame t = mkDataFrame ["raw"] ((fun r => [CStr (Py.join_space r)]) <$> t)
  ∧ align EXPECTED_COLUMNS t =
      Ok (mkDataFrame EXPECTED_COLUMNS
            ((fun _ => (fun _ => CNA) <$> EXPECTED_COLUMNS) <$> t)).
Proof.
  intros Hm Hnone. pose proof (table_frame_mismatch t Hm) as Hraw. split; [done|].
  assert (NoDup (normalize_label <$> columns (table_frame t))) as Hnd.
  { rewrite Hraw. simpl. apply NoDup_singleton. }
  pose proof (labels_before_projection_NoDup EXPECTED_COLUMNS t Hnd) as Hnd'.
  assert ("raw" ∉ EXPECTED_COLUMNS) as Hraw_out.
  { intros Hin. specialize (Hnone _ Hin).
    rewrite get_close_matches_exact in Hnone by (by left). done. }
  assert (labels_before_projection EXPECTED_COLUMNS t
          = "raw" :: missing ["raw"] EXPECTED_COLUMNS) as Hlabels.
  { unfold labels_before_projection. cbv zeta. rewrite Hraw. cbn [columns raw_frame].
    change (normalize_label <$> ["raw"]) with ["raw"].
    rewrite close_mapping_fold, mapping_fold_none by done. done. }
  rewrite align_ok. f_equal. f_equal.
  { apply select_self; [done|]. intros k Hk. by apply missing_covers. }
  unfold rows_before_projection. cbv zeta. rewrite Hraw. cbn [rows raw_frame columns].
  change (normalize_label <$> ["raw"]) with ["raw"].
  rewrite close_mapping_fold, mapping_fold_none by done.
  change (rename_labels ∅ ["raw"]) with ["raw"].
  rewrite <-!list_fmap_compose. apply list_fmap_ext. intros _ r _. unfold compose.
  cbn [app]. rewrite Hlabels in Hnd' |- *. rewrite select_pick, <-bind_const.
  apply bind_ext_in. intros k Hk.
  destruct (pick_singleton ("raw" :: missing ["raw"] EXPECTED_COLUMNS)
              (CStr (Py.join_space r)
                 :: replicate (length (missing ["raw"] EXPECTED_COLUMNS)) CNA) k)
    as [v Hv]; [done|by (cbn [length]; rewrite length_replicate)| |].
  { rewrite <-Hlabels. by apply missing_covers. }
  rewrite Hv. f_equal.
  assert (v ∈ pick ("raw" :: missing ["raw"] EXPECTED_COLUMNS)
                (CStr (Py.join_space r)
                   :: replicate (length (missing ["raw"] EXPECTED_COLUMNS)) CNA) k) as Hin
    by (rewrite Hv; by left).
  apply pick_elem in Hin. simpl in Hin.
  apply elem_of_cons in Hin as [[= -> ->]|Hin]; [done|].
  apply elem_of_zip_r in Hin. by apply elem_of_replicate_inv in Hin.
Qed.

Lemma align_labels_equal_schema_witness :
  align example_schema example_table
  = Ok (mkDataFrame example_schema (pad (length example_schema) <$> tail example_table)).
Proof.
  refine (proj1 (align_labels_equal_schema example_schema example_table _ _ _)).
  - apply (bool_decide_unpack _). vm_compute. exact I.
  - vm_compute. reflexivity.
  - apply (bool_decide_unpack _). vm_compute. exact I.
Defined.

(** C9 as stated fails: the header row is the schema, one data row is wider
    than the header, the frame is the one-column fallback and the aligned
    frame holds nothing of the data: two rows of null cells, one of them for
    the header row. *)
Lemma align_header_schema_wide_row :
  normalize_label <$> hd [] example_schema_header_wide_row = example_short_schema
  ∧ columns (table_frame example_schema_header_wide_row) = ["raw"]
  ∧ align example_short_schema example_schema_header_wide_row
    = Ok (mkDataFrame example_short_schema [[CNA; CNA]; [CNA; CNA]])
  ∧ mkDataFrame example_short_schema [[CNA; CNA]; [CNA; CNA]]
    ≠ mkDataFrame example_short_schema
        ((fun r : list string => CStr <$> r) <$> [["2024-01-01"; "3.50"]]).
Proof. split_and!; [vm_compute; reflexivity..|discriminate]. Qed.

Lemma example_wide_table_mismatch : structural_mismatch example_wide_table.
Proof. apply (bool_decide_unpack _). vm_compute. exact I. Defined.

Lemma align_mismatch_fallback_witness :
  table_frame example_wide_table = raw_frame example_wide_table
  ∧ ∃ df, align example_schema example_wide_table = Ok df
          ∧ columns df = example_schema
          ∧ Forall2 (fun r row =>
                       length row = length example_schema
                       ∧ Forall (fun c => c = CNA ∨ c = CStr (Py.join_space r)) row)
              example_wide_table (rows df).
Proof.
  apply (align_mismatch_fallback example_schema example_wide_table).
  exact example_wide_table_mismatch.
Defined.

(** C6 as stated fails: a data row narrower than the header is padded with
    [None]; the frame is not the one-column fallback and the aligned frame
    keeps the cells. *)
Lemma align_short_row_padded :
  (∃ r, r ∈ tail example_short_row_table
        ∧ length r ≠ length (hd [] example_short_row_table))
  ∧ table_frame example_short_row_table ≠ raw_frame example_short_row_table
  ∧ align ["a"; "b"] example_short_row_table
    = Ok (mkDataFrame ["a"; "b"] [[CStr "1"; CNone]; [CStr "2"; CStr "3"]]).
Proof.
  split_and!.
  - exists ["1"]. split; [by left|]. vm_compute. lia.
  - vm_compute. discriminate.
  - vm_compute. reflexivity.
Qed.

Lemma align_raw_fallback_all_null_witness :
  table_frame example_wide_table
  = mkDataFrame ["raw"] ((fun r => [CStr (Py.join_space r)]) <$> example_wide_table)
  ∧ align ["date"; "amount"] example_wide_table
    = Ok (mkDataFrame ["date"; "amount"]
            ((fun _ => (fun _ => CNA) <$> ["date"; "amount"]) <$> example_wide_table)).
Proof.
  apply (align_raw_fallback_all_null ["date"; "amount"] example_wide_table).
  - exact example_wide_table_mismatch.
  - intros exp Hexp.
    apply elem_of_cons in Hexp as [->|Hexp]; [vm_compute; reflexivity|].
    apply elem_of_cons in Hexp as [->|Hexp]; [vm_compute; reflexivity|].
    by apply elem_of_nil in Hexp.
Defined.

(** ** Assembling and the cleanup *)

Lemma append_String c (a b : string) : (String c a ++ b)%string = String c (a ++ b)%string.
Proof. done. Qed.

Lemma append_Empty (b : string) : (EmptyString ++ b)%string = b.
Proof. done. Qed.

Lemma lstrip_spec s :
  ∃ pre, s = (pre ++ Py.lstrip s)%string ∧ all_space pre = true
         ∧ Py.starts_with_space (Py.lstrip s) = false.
Proof.
  induction s as [|c s (pre & Hs & Hpre & Hstart)]; simpl.
  { by exists EmptyString. }
  destruct (Py.isspace c) eqn:Hc.
  - exists (String c pre). simpl. rewrite Hc, Hpre, append_String.
    split_and!; [by f_equal|done|done].
  - exists EmptyString. simpl. by rewrite Hc.
Qed.

Lemma rstrip_spec s :
  ∃ post, s = (Py.rstrip s ++ post)%string ∧ all_space post = true
          ∧ ends_with_space (Py.rstrip s) = false.
Proof.
  induction s as [|c s (post & Hs & Hpost & Hend)]; simpl.
  { by exists EmptyString. }
  destruct (Py.rstrip s) as [|c' r] eqn:Hr.
  - rewrite append_Empty in Hs. subst s. destruct (Py.isspace c) eqn:Hc.
    + exists (String c post). simpl. by rewrite Hc, Hpost.
    + exists post. simpl. by rewrite Hc.
  - exists post. rewrite append_String. split_and!; [by f_equal|done|done].
Qed.

Lemma rstrip_starts s :
  Py.starts_with_space s = false → Py.starts_with_space (Py.rstrip s) = false.
Proof.
  destruct s as [|c s]; simpl; [done|]. intros Hc.
  destruct (Py.rstrip s); simpl; by rewrite ?Hc.
Qed.

(** [strip] removes a whitespace prefix and a whitespace suffix, nothing
    else, and leaves no whitespace at either end. *)
Lemma strip_spec s :
  ∃ pre post, s = (pre ++ Py.strip s ++ post)%string
              ∧ all_space pre = true ∧ all_space post = true
              ∧ Py.starts_with_space (Py.strip s) = false
              ∧ ends_with_space (Py.strip s) = false.
Proof.
  destruct (lstrip_spec s) as (pre & Hs & Hpre & Hstart).
  destruct (rstrip_spec (Py.lstrip s)) as (post & Hl & Hpost & Hend).
  exists pre, post. unfold Py.strip. split_and!; try done.
  - by rewrite <-Hl.
  - by apply rstrip_starts.
Qed.

Lemma zip_with_twice {A B} (f g : A → B → B) (l : list A) (k : list B) :
  zip_with f l (zip_with g l k) = zip_with (fun a b => f a (g a b)) l k.
Proof.
  revert k. induction l as [|a l IH]; intros [|b k]; simpl; [done..|]. by rewrite IH.
Qed.

Lemma zip_with_on_labels {A B C} (f : A → B → C) (g : B → C) (l : list A) (k : list B) :
  (∀ a b, a ∈ l → f a b = g b) → length k ≤ length l → zip_with f l k = g <$> k.
Proof.
  revert k. induction l as [|a l IH]; intros [|b k] Hfg Hlen; simpl in *; try done; try lia.
  rewrite Hfg by (by left). f_equal. apply IH; [|lia].
  intros a' b' Ha'. apply Hfg. by right.
Qed.

Lemma filter_eq_NoDup (cols : list string) c :
  NoDup cols → c ∈ cols → length (filter (fun lbl => lbl = c) cols) = 1.
Proof.
  induction cols as [|x cols IH]; intros Hnd Hc.
  { by apply elem_of_nil in Hc. }
  apply NoDup_cons in Hnd as [Hx Hnd].
  destruct (decide (x = c)) as [->|Hne].
  - rewrite filter_cons_True by done. simpl. f_equal.
    apply length_zero_iff_nil. apply elem_of_nil_inv. intros y Hy.
    apply list_elem_of_filter in Hy as [-> Hy]. done.
  - rewrite filter_cons_False by done. apply IH; [done|].
    apply elem_of_cons in Hc as [->|Hc]; done.
Qed.

Lemma cleanup_fold cols rows0 todo done_ :
  NoDup cols → (∀ c, c ∈ todo → c ∈ cols) → NoDup (done_ ++ todo) →
  fold_left (fun acc c => result ← acc; strip_column result c) todo
    (Ok (mkDataFrame cols (stripped done_ cols <$> rows0)))
  = Ok (mkDataFrame cols (stripped (done_ ++ todo) cols <$> rows0)).
Proof.
  intros Hcols. revert done_. induction todo as [|c todo IH]; intros done_ Htodo Hnd.
  { by rewrite app_nil_r. }
  cbn [fold_left]. 
  assert (Ok (mkDataFrame cols (stripped done_ cols <$> rows0))
            ≫= (fun result => strip_column result c)
          = Ok (mkDataFrame cols (stripped (done_ ++ [c]) cols <$> rows0))) as ->.
  { change (strip_column (mkDataFrame cols (stripped done_ cols <$> rows0)) c = 
            Ok (mkDataFrame cols (stripped (done_ ++ [c]) cols <$> rows0))).
    unfold strip_column. cbn [columns rows].
    rewrite filter_eq_NoDup by (try done; apply Htodo; by left).
    f_equal. f_equal. rewrite <-list_fmap_compose. apply list_fmap_ext.
    intros _ r _. unfold compose, stripped. rewrite zip_with_twice.
    apply zip_with_ext; [|done|done]. intros lbl x.
    apply NoDup_app in Hnd as (_ & Hdisj & _).
    assert (c ∉ done_) as Hc by (intros Hin; apply (Hdisj _ Hin); by left).
    destruct (decide (lbl = c)) as [->|Hne];
      destruct (decide (_ ∈ done_)) as [Hin|Hin];
      destruct (decide (_ ∈ done_ ++ [c])) as [Hin'|Hin']; try done; exfalso.
    - apply Hin'. apply elem_of_app. right. by left.
    - apply Hin'. apply elem_of_app. by left.
    - apply elem_of_app in Hin' as [?|?%list_elem_of_singleton]; done. }
  rewrite IH.
  - by rewrite <-app_assoc.
  - intros c' Hc'. apply Htodo. by right.
  - by rewrite <-app_assoc.
Qed.

(** On a frame with unique labels the cleanup rewrites every cell with
    [astype(str)] and [str.strip]. *)
Lemma cleanup_spec result :
  NoDup (columns result) → well_formed result →
  cleanup result
  = Ok (mkDataFrame (columns result) ((fun r : list cell => str_strip <$> r) <$> rows result)).
Proof.
  intros Hnd Hwf. destruct result as [cols rws]. unfold cleanup, object_columns.
  cbn [columns rows] in *.
  assert (rws = stripped [] cols <$> rws) as Hstart.
  { transitivity (id <$> rws); [by rewrite list_fmap_id|].
    apply list_fmap_ext. intros i r Hr. unfold stripped.
    rewrite (zip_with_on_labels _ id); [by rewrite list_fmap_id|done|].
    unfold well_formed in Hwf. cbn [columns rows] in Hwf.
    by rewrite (proj1 (Forall_lookup _ _) Hwf i r Hr). }
  rewrite Hstart at 1. rewrite cleanup_fold; [|done|done|done].
  f_equal. f_equal. apply list_fmap_ext. intros i r Hr. unfold stripped. simpl.
  apply zip_with_on_labels.
  - intros lbl x Hlbl. by rewrite decide_True.
  - unfold well_formed in Hwf. cbn [columns rows] in Hwf.
    by rewrite (proj1 (Forall_lookup _ _) Hwf i r Hr).
Qed.

Lemma concat_same_columns cols (frames : list DataFrame) :
  frames ≠ [] → Forall (fun g => columns g = cols) frames →
  concat frames = Ok (mkDataFrame cols (stacked frames)).
Proof.
  destruct frames as [|f fs]; [done|]. intros _ Hall.
  apply Forall_cons in Hall as [Hf Hfs]. unfold concat, stacked.
  destruct fs as [|g fs]; [by rewrite Hf|].
  rewrite decide_True; [by rewrite Hf|].
  eapply Forall_impl; [exact Hfs|]. intros h Hh. simpl in Hh. congruence.
Qed.

Lemma stacked_well_formed cols (frames : list DataFrame) :
  Forall (fun g => columns g = cols ∧ well_formed g) frames →
  Forall (fun r => length r = length cols) (stacked frames).
Proof.
  intros Hall.
  assert (Forall (fun r => length r = length cols) (mjoin (refilled <$> frames))) as Hjoin.
  { apply Forall_forall.
    intros r (rs & Hr & (g & -> & Hg)%list_elem_of_fmap)%list_elem_of_join.
    apply (proj1 (Forall_forall _ _) Hall) in Hg as [<- Hwf].
    unfold refilled in Hr. apply list_elem_of_fmap in Hr as (r0 & -> & Hr0).
    rewrite length_fmap. by apply (proj1 (Forall_forall _ _) Hwf). }
  unfold stacked. destruct frames as [|f [|g fs]]; [done| |done].
  apply Forall_cons in Hall as [[<- Hwf] _]. done.
Qed.

(** The frames of the candidates stacked in their order, then cleaned. *)
Lemma assemble_spec (EXPECTED_COLUMNS : list string) (candidates : list DataFrame) :
  candidates ≠ [] → NoDup EXPECTED_COLUMNS →
  Forall (fun g => columns g = EXPECTED_COLUMNS ∧ well_formed g) candidates →
  assemble EXPECTED_COLUMNS candidates
  = Ok (mkDataFrame EXPECTED_COLUMNS
          ((fun r : list cell => str_strip <$> r) <$> stacked candidates)).
Proof.
  intros Hne Hnd Hall. unfold assemble.
  destruct candidates as [|f fs] eqn:Hc; [done|]. rewrite <-Hc in *. clear Hc.
  rewrite (concat_same_columns EXPECTED_COLUMNS); [|done|].
  2: { eapply Forall_impl; [exact Hall|]. by intros g [? _]. }
  change (cleanup (mkDataFrame EXPECTED_COLUMNS (stacked candidates)) =
          Ok (mkDataFrame EXPECTED_COLUMNS
               ((fun r : list cell => str_strip <$> r) <$> stacked candidates))).
  rewrite cleanup_spec; [done|done|].
  unfold well_formed. cbn [columns rows]. by apply stacked_well_formed.
Qed.

(** C7: two aligned frames are assembled into their rows in order, those of
    the first followed by those of the second, each cell as the
    concatenation and the cleanup leave it (the text of the cell stripped, a
    cell [pd.NA] as the text "nan", a padding [None] as "None"); no candidate
    at all gives the frame without rows whose columns are the schema, so
    never a frame without columns for a schema that has some. *)
Theorem assemble_concat_order (EXPECTED_COLUMNS : list string) (t1 t2 : RawTable)
    (A1 A2 : DataFrame) :
  NoDup EXPECTED_COLUMNS →
  align EXPECTED_COLUMNS t1 = Ok A1 → columns A1 = EXPECTED_COLUMNS → well_formed A1 →
  align EXPECTED_COLUMNS t2 = Ok A2 → columns A2 = EXPECTED_COLUMNS → well_formed A2 →
  assemble EXPECTED_COLUMNS [A1; A2]
  = Ok (mkDataFrame EXPECTED_COLUMNS
          (((fun r : list cell => (fun x => str_strip (refill x)) <$> r) <$> rows A1)
             ++ ((fun r : list cell => (fun x => str_strip (refill x)) <$> r) <$> rows A2)))
  ∧ assemble EXPECTED_COLUMNS [] = Ok (mkDataFrame EXPECTED_COLUMNS [])
  ∧ (EXPECTED_COLUMNS ≠ [] →
     ∃ df, assemble EXPECTED_COLUMNS [] = Ok df ∧ columns df ≠ [] ∧ rows df = []).
Proof.
  intros Hnd _ H1 Hwf1 _ H2 Hwf2. split_and!.
  - rewrite assemble_spec; [|done|done|by repeat constructor].
    unfold stacked, refilled. cbn [fmap list_fmap mjoin list_join].
    rewrite app_nil_r, fmap_app, <-!list_fmap_compose. do 2 f_equal.
    f_equal; apply list_fmap_ext; intros _ r _; simpl; by rewrite <-list_fmap_compose.
  - done.
  - intros Hne. eexists. split; [done|]. done.
Qed.

(** C2, as amended: on the assembled frame the cleanup casts every cell
    with [astype(str)] and strips it.  A string cell only loses whitespace
    at its two ends; a cell holding the null sentinel does not stay as it is:
    it becomes the text "<NA>" (and a padding [None] the text "None"). *)
Theorem cleanup_casts_and_strips (result : DataFrame) :
  NoDup (columns result) → well_formed result →
  cleanup result
  = Ok (mkDataFrame (columns result) ((fun r : list cell => str_strip <$> r) <$> rows result))
  ∧ (∀ s, str_strip (CStr s) = CStr (Py.strip s)
          ∧ ∃ pre post, s = (pre ++ Py.strip s ++ post)%string
                        ∧ all_space pre = true ∧ all_space post = true
                        ∧ Py.starts_with_space (Py.strip s) = false
                        ∧ ends_with_space (Py.strip s) = false)
  ∧ str_strip CNA = CStr "<NA>"
  ∧ str_strip CNone = CStr "None".
Proof.
  intros Hnd Hwf. split_and!; [by apply cleanup_spec| |done|done].
  intros s. split; [done|]. apply strip_spec.
Qed.

Lemma cleanup_casts_and_strips_witness :
  cleanup example_aligned
  = Ok (mkDataFrame (columns example_aligned)
          ((fun r : list cell => str_strip <$> r) <$> rows example_aligned)).
Proof.
  apply (cleanup_casts_and_strips example_aligned).
  - apply (bool_decide_unpack _). vm_compute. exact I.
  - repeat constructor.
Defined.

(** C2 as stated fails: the page's only label close to the schema is
    "Date", the aligned frame holds the null sentinel under "description"
    and "amount", and after the cleanup [parse] returns the text "<NA>" in
    those cells. *)
Lemma cleanup_coerces_null :
  align example_schema [["Date"; "Desc"; "Amt"]; ["2024-01-01"; " Coffee "; "3.50"]]
  = Ok example_aligned
  ∧ cleanup example_aligned
    = Ok (mkDataFrame example_schema [[CStr "2024-01-01"; CStr "<NA>"; CStr "<NA>"]])
  ∧ parse example_schema [example_page]
    = Ok (mkDataFrame example_schema [[CStr "2024-01-01"; CStr "<NA>"; CStr "<NA>"]])
  ∧ CStr "<NA>" ≠ CNA.
Proof. split_and!; [vm_compute; reflexivity..|discriminate]. Qed.

Lemma assemble_concat_order_witness :
  assemble example_schema
    [mkDataFrame example_schema [[CStr "2024-01-01"; CNA; CNA]];
     mkDataFrame example_schema
       [[CStr "2024-01-02"; CStr "Tea"; CStr "2.00"]; [CStr "2024-01-03"; CStr "Bun"; CNone]]]
  = Ok (mkDataFrame example_schema
          [[CStr "2024-01-01"; CStr "nan"; CStr "nan"];
           [CStr "2024-01-02"; CStr "Tea"; CStr "2.00"];
           [CStr "2024-01-03"; CStr "Bun"; CStr "None"]]).
Proof.
  apply (assemble_concat_order example_schema example_first_table example_second_table
           (mkDataFrame example_schema [[CStr "2024-01-01"; CNA; CNA]])
           (mkDataFrame example_schema
              [[CStr "2024-01-02"; CStr "Tea"; CStr "2.00"];
               [CStr "2024-01-03"; CStr "Bun"; CNone]])).
  - apply (bool_decide_unpack _). vm_compute. exact I.
  - vm_compute. reflexivity.
  - reflexivity.
  - repeat constructor.
  - vm_compute. reflexivity.
  - reflexivity.
  - repeat constructor.
Defined.

End ParserFacts.

(** ** The extractor *)

Module ExtractorFacts.
Import Spec ParserFacts.

Local Open Scope string_scope.

Lemma append_assoc (a b c : string) : (a ++ b) ++ c = a ++ (b ++ c).
Proof. induction a as [|x a IH]; [done|]. by rewrite !append_String, IH. Qed.

Lemma append_nil_r (a : string) : a ++ "" = a.
Proof. induction a as [|x a IH]; [done|]. by rewrite append_String, IH. Qed.

Lemma append_snoc (a : string) c (b : string) : (a ++ String c "") ++ b = a ++ String c b.
Proof. by rewrite append_assoc. Qed.

Lemma starts_with_space_app (a b : string) :
  a ≠ "" → Py.starts_with_space (a ++ b) = Py.starts_with_space a.
Proof. by destruct a. Qed.

Lemma ends_with_space_app (a b : string) :
  b ≠ "" → ends_with_space (a ++ b) = ends_with_space b.
Proof.
  intros Hb. induction a as [|x a IH]; [done|].
  rewrite append_String. cbn [ends_with_space]. rewrite IH.
  destruct (a ++ b) eqn:Hab; [|done]. by destruct a, b.
Qed.

Lemma ends_with_space_snoc (a : string) c : ends_with_space (a ++ String c "") = Py.isspace c.
Proof. by rewrite ends_with_space_app. Qed.

Lemma ends_with_space_cons c (s : string) :
  s ≠ "" → ends_with_space (String c s) = ends_with_space s.
Proof. by destruct s. Qed.

Lemma separator_free_snoc (tok : string) c :
  separator_free tok = true →
  (Py.isspace c = true → ends_with_space tok = false ∧ Ascii.eqb c Py.TAB = false) →
  separator_free (tok ++ String c "") = true.
Proof.
  induction tok as [|x tok IH]; intros Hfree Hc.
  { rewrite append_Empty. cbn [separator_free Py.starts_with_space].
    destruct (Py.isspace c); [|done]. destruct Hc as [_ ->]; done. }
  rewrite append_String. cbn [separator_free] in *.
  assert (separator_free tok = true) as Htok.
  { destruct (Py.isspace x); [|done]. by apply andb_true_iff in Hfree as [_ ?]. }
  assert (separator_free (tok ++ String c "") = true) as Hrec.
  { apply IH; [done|]. intros Hcs. destruct (Hc Hcs) as [Hend Htabc]. split; [|done].
    destruct tok; [done|]. by rewrite ends_with_space_cons in Hend. }
  rewrite Hrec. destruct (Py.isspace x) eqn:Hx; [|done].
  apply andb_true_iff in Hfree as [Hfree _]. apply andb_true_iff in Hfree as [-> Hnext].
  rewrite andb_true_r, andb_true_l.
  destruct tok as [|y tok].
  - rewrite append_Empty. cbn [Py.starts_with_space].
    destruct (Py.isspace c) eqn:Hcs; [|done].
    destruct (Hc eq_refl) as [Hend _]. cbn [ends_with_space] in Hend. congruence.
  - rewrite append_String. cbn [Py.starts_with_space] in *. done.
Qed.

Lemma re_split_from_splits (s : string) :
  (∀ tok, collecting tok s → tok ++ s ≠ "" → ends_with_space (tok ++ s) = false →
          splits (tok ++ s) (Py.re_split_from false tok s))
  ∧ (s ≠ "" → ends_with_space s = false →
     ∃ w v, s = w ++ v ∧ all_space w = true ∧ v ≠ ""
            ∧ Py.starts_with_space v = false
            ∧ splits v (Py.re_split_from true "" s)).
Proof.
  induction s as [|c s [IHfalse IHtrue]].
  { split; [|done]. intros tok (Hfree & Hstart & _ & _) Hne Hend.
    rewrite append_nil_r in *. cbn [Py.re_split_from]. by apply splits_last. }
  split.
  - intros tok (Hfree & Hstart & Hempty & Hmeet) Hne Hend.
    cbn [Py.re_split_from]. destruct (Py.isspace c) eqn:Hc.
    + cbn [Py.starts_with_space] in Hempty, Hmeet.
      assert (tok ≠ "") as Htok by (intros ->; specialize (Hempty eq_refl); congruence).
      assert (ends_with_space tok = false) as Htokend.
      { destruct (ends_with_space tok) eqn:He; [|done].
        specialize (Hmeet eq_refl). congruence. }
      assert (token tok) as Htoken by done.
      destruct (Py.starts_with_space s) eqn:Hs.
      * assert (s ≠ "") as Hsne by (by destruct s).
        destruct IHtrue as (w & v & -> & Hw & Hv & Hvstart & Hsplit); [done| |].
        { rewrite ends_with_space_app in Hend by done.
          by rewrite ends_with_space_cons in Hend. }
        rewrite <-append_String. apply splits_sep; [done| |done].
        right. cbn [all_space String.length]. rewrite Hc, Hw. split; [done|].
        destruct w; [by rewrite append_Empty, Hvstart in Hs|]. simpl. lia.
      * destruct (Ascii.eqb c Py.TAB) eqn:Htab.
        -- apply Ascii.eqb_eq in Htab as ->.
           assert (s ≠ "") as Hsne.
           { intros ->. by rewrite ends_with_space_snoc, Hc in Hend. }
           change (String Py.TAB s) with (String Py.TAB "" ++ s).
           apply splits_sep; [done|by left|].
           rewrite <-(append_Empty s) at 1. apply IHfalse.
           ++ done.
           ++ by rewrite append_Empty.
           ++ rewrite append_Empty. rewrite ends_with_space_app in Hend by done.
              by rewrite ends_with_space_cons in Hend.
        -- rewrite <-append_snoc. apply IHfalse.
           ++ split_and!.
              ** by apply separator_free_snoc.
              ** by rewrite starts_with_space_app.
              ** intros Heq. by destruct tok.
              ** done.
           ++ by destruct tok.
           ++ by rewrite append_snoc.
    + rewrite <-append_snoc. apply IHfalse.
      * split_and!.
        -- apply separator_free_snoc; [done|]. intros ?; congruence.
        -- destruct tok as [|x tok]; [by rewrite append_Empty; simpl|].
           by rewrite starts_with_space_app.
        -- intros Heq. by destruct tok.
        -- rewrite ends_with_space_snoc. congruence.
      * by destruct tok.
      * by rewrite append_snoc.
  - intros _ Hend. cbn [Py.re_split_from]. destruct (Py.isspace c) eqn:Hc.
    + assert (s ≠ "") as Hsne by (intros ->; simpl in Hend; congruence).
      rewrite ends_with_space_cons in Hend by done.
      destruct IHtrue as (w & v & -> & Hw & Hv & Hvstart & Hsplit); [done..|].
      exists (String c w), v. rewrite append_String. cbn [all_space]. by rewrite Hc, Hw.
    + exists "", (String c s). rewrite !append_Empty. split_and!; [done..| |].
      { simpl. done. }
      change (String c s) with (String c "" ++ s) at 1. apply IHfalse.
      * split_and!; simpl; try done; [by rewrite Hc|intros ?; congruence].
      * done.
      * done.
Qed.

(** A line without whitespace at its ends is split into tokens exactly at
    its separators. *)
Lemma re_split_cols_splits (line : string) :
  line ≠ "" → Py.starts_with_space line = false → ends_with_space line = false →
  splits line (Py.re_split_cols line).
Proof.
  intros Hne Hstart Hend. destruct (re_split_from_splits line) as [Hfalse _].
  apply (Hfalse ""); by rewrite ?append_Empty.
Qed.

Local Close Scope string_scope.

Lemma filter_fmap_strip (lines : list string) :
  Py.strip <$> filter (fun line => Py.strip line ≠ EmptyString) lines
  = filter (fun line => line ≠ EmptyString) (Py.strip <$> lines).
Proof.
  induction lines as [|l lines IH]; [done|]. rewrite fmap_cons.
  destruct (decide (Py.strip l = EmptyString)) as [He|He].
  - by rewrite !filter_cons_False by (by intros ?).
  - rewrite !filter_cons_True by done. by rewrite fmap_cons, IH.
Qed.

Lemma extract_page_spec tables p :
  extract_page tables p = tables ++ option_list (page_table p).
Proof.
  unfold extract_page, page_table, structured_table, text_lines.
  destruct (extract_table p) as [[|r t]|]; simpl.
  2: done.
  all: destruct (extract_text p) as [[|c text]|]; simpl; rewrite ?app_nil_r; try done.
  all: rewrite filter_fmap_strip;
       by destruct (filter _ (Py.strip <$> Py.splitlines (String c text)));
         rewrite ?app_nil_r.
Qed.

Lemma fold_extract_page pdf tables :
  fold_left extract_page pdf tables = tables ++ omap page_table pdf.
Proof.
  revert tables. induction pdf as [|p pdf IH]; intros tables; simpl.
  { by rewrite app_nil_r. }
  rewrite IH, extract_page_spec, <-app_assoc. by destruct (page_table p).
Qed.

Lemma length_omap_le {A B} (f : A → option B) (l : list A) : length (omap f l) ≤ length l.
Proof.
  induction l as [|x l IH]; simpl; [done|].
  fold (omap f l). destruct (f x); simpl; fold (omap f l); lia.
Qed.

Lemma text_lines_stripped p line :
  line ∈ text_lines p →
  line ≠ EmptyString ∧ Py.starts_with_space line = false ∧ ends_with_space line = false.
Proof.
  unfold text_lines. destruct (extract_text p) as [text|]; [|by intros ?%elem_of_nil].
  intros [Hne (raw & -> & _)%list_elem_of_fmap]%list_elem_of_filter.
  destruct (strip_spec raw) as (pre & post & _ & _ & _ & Hstart & Hend). done.
Qed.

(** C5: every page contributes at most one table, in page order: its
    structured table when that has rows; otherwise the token rows of its
    non-empty stripped text lines, each line split exactly at its runs of
    two or more whitespace characters and at its lone TABs; and nothing,
    without any error, when it has neither. *)
Theorem extract_tables_per_page (pdf : list page) :
  _extract_tables pdf = omap page_table pdf
  ∧ length (_extract_tables pdf) ≤ length pdf
  ∧ ∀ p,
      (∀ r t, extract_table p = Some (r :: t) → page_table p = Some (r :: t))
      ∧ (structured_table p = None → text_lines p ≠ [] →
         page_table p = Some (Py.re_split_cols <$> text_lines p))
      ∧ (structured_table p = None → text_lines p = [] → page_table p = None)
      ∧ (∀ line, line ∈ text_lines p → splits line (Py.re_split_cols line)).
Proof.
  assert (_extract_tables pdf = omap page_table pdf) as Heq.
  { unfold _extract_tables. by rewrite fold_extract_page. }
  split_and!; [done|rewrite Heq; apply length_omap_le|].
  intros p. split_and!.
  - intros r t Ht. unfold page_table, structured_table. by rewrite Ht.
  - intros Hs Hl. unfold page_table. rewrite Hs. by destruct (text_lines p).
  - intros Hs Hl. unfold page_table. by rewrite Hs, Hl.
  - intros line (Hne & Hstart & Hend)%text_lines_stripped. by apply re_split_cols_splits.
Qed.

Lemma extract_tables_per_page_witness :
  page_table example_text_page
  = Some (Py.re_split_cols <$> text_lines example_text_page)
  ∧ _extract_tables [example_text_page; mkPage None None]
    = [[["Date"; "Desc"; "Amount"]; ["2024-01-01"; "Coffee shop"; "3.50"]]].
Proof.
  split.
  - apply (extract_tables_per_page [example_text_page]).
    + reflexivity.
    + vm_compute. discriminate.
  - vm_compute. reflexivity.
Defined.

End ExtractorFacts.

(** ** The retry loop *)

Module AgentFacts.
Import Agent Spec.

(** ** Synthesis *)

(** The parser template holds brace groups that are not fields of the call:
    the first of them, [{2,}] in the pattern of [re.split], is looked up as
    a keyword argument. *)
Lemma PARSER_TEMPLATE_format_raises (target : string) (expected_columns : list string) :
  PARSER_TEMPLATE_format target expected_columns = Py.Raised (Py.KeyError "2,").
Proof. vm_compute. reflexivity. Qed.

Lemma TEST_TEMPLATE_format_done (target : string) :
  TEST_TEMPLATE_format target = Py.Done (test_file target).
Proof. unfold test_file. vm_compute. reflexivity. Qed.

Lemma write_parser_raises (target : string) (expected_columns : list string) (st : state) :
  write_parser target expected_columns st = (Uncaught (Py.KeyError "2,"), st).
Proof.
  unfold write_parser, bind, call. by rewrite PARSER_TEMPLATE_format_raises.
Qed.

Lemma write_test_spec (target : string) (st : state) :
  write_test target st
  = (Return (test_path target),
     mkState (DATA_DIR st) (CUSTOM_DIR st)
       (<[test_path target := test_file target]> (TESTS_DIR st))
       (stdout st ++ [WroteTest (test_path target)]) (pytest_runs st)).
Proof.
  unfold write_test, bind, call. by rewrite TEST_TEMPLATE_format_done.
Qed.

(** C8: synthesis does not come about.  Whatever the target, the columns
    and the state, [write_parser] is ended by [KeyError('2,')] raised by
    [PARSER_TEMPLATE.format] before anything is written: no artifact is
    produced, and what an earlier synthesis may have left for the target is
    not replaced. *)
Theorem write_parser_writes_nothing (target : string) (expected_columns : list string)
    (st : state) :
  let r := write_parser target expected_columns st in
  r.1 = Uncaught (Py.KeyError "2,")
  ∧ r.2 = st
  ∧ CUSTOM_DIR r.2 !! parser_path target = CUSTOM_DIR st !! parser_path target.
Proof. cbv zeta. by rewrite write_parser_raises. Qed.

(** ** The loop *)

Lemma attempt_lines_app out1 out2 :
  attempt_lines (out1 ++ out2) = attempt_lines out1 + attempt_lines out2.
Proof. unfold attempt_lines. by rewrite filter_app, length_app. Qed.

Section Loop.

Variable pytest : nat → bool.

(** The first pass through the loop body ends in [write_parser]. *)
Lemma attempts_loop_raises target cols mx attempt rest st :
  attempts_loop pytest target cols mx (attempt :: rest) st
  = (Uncaught (Py.KeyError "2,"),
     mkState (DATA_DIR st) (CUSTOM_DIR st) (TESTS_DIR st)
       (stdout st ++ [Attempt attempt mx]) (pytest_runs st)).
Proof.
  cbn [attempts_loop]. unfold bind at 1. cbn [print].
  unfold bind at 1. by rewrite write_parser_raises.
Qed.

(** [main] once both input files are found: the test is written, the first
    attempt is announced, and the process is ended by the exception. *)
Lemma main_inputs_present arg st pdf golden :
  let target := Py.lower (Py.strip arg) in
  DATA_DIR st !! target = Some (mkFolder (Some pdf) (Some golden)) →
  main pytest arg st
  = (Uncaught (Py.KeyError "2,"),
     mkState (DATA_DIR st) (CUSTOM_DIR st)
       (<[test_path target := test_file target]> (TESTS_DIR st))
       (stdout st ++ [ExpectedColumns (csv_columns golden); WroteTest (test_path target);
                      Attempt 1 3])
       (pytest_runs st)).
Proof.
  intros target Hdata. unfold main. fold target.
  unfold bind at 1. unfold read_folder. rewrite Hdata. cbn [sample_pdf expected_csv].
  unfold bind at 1. cbn [print]. unfold bind at 1. rewrite write_test_spec.
  unfold bind at 1. cbn [seq]. rewrite attempts_loop_raises.
  cbn [DATA_DIR CUSTOM_DIR TESTS_DIR stdout pytest_runs].
  unfold infer_expected_columns. by rewrite <-!app_assoc.
Qed.

(** [main] when the folder or one of the two files is missing: it prints
    one line and exits with status 2 at once. *)
Lemma main_inputs_missing (arg : string) (st : state) :
  let target := Py.lower (Py.strip arg) in
  inputs_missing st target →
  main pytest arg st
  = (SysExit 2,
     mkState (DATA_DIR st) (CUSTOM_DIR st) (TESTS_DIR st)
       (stdout st ++ [match DATA_DIR st !! target with
                      | None => ErrorNoFolder target
                      | Some _ => ErrorRequireFiles target
                      end])
       (pytest_runs st)).
Proof.
  intros target [Hnone|(f & Hf & Hfile)].
  - unfold main, bind, read_folder. fold target. by rewrite Hnone.
  - unfold main, bind, read_folder. fold target. rewrite Hf.
    destruct f as [[pdf|] [golden|]]; simpl in *; [by destruct Hfile|done..].
Qed.

Lemma inputs_present_or_missing (st : state) (target : string) :
  inputs_present st target ∨ inputs_missing st target.
Proof.
  unfold inputs_present, inputs_missing.
  destruct (DATA_DIR st !! target) as [[[pdf|] [golden|]]|] eqn:Hf; eauto 10.
Qed.

(** C3: the loop of [main] does not run as the claim has it.  With the
    inputs in place, and whatever the tests would say, the first attempt is
    announced and ended by [KeyError('2,')] in [write_parser]: no test is
    run, so no passing attempt stops the loop and no third failed attempt
    ends it; one attempt line is printed and neither a success line nor the
    failure line. *)
Theorem main_ends_in_first_attempt (arg : string) (st : state) :
  inputs_present st (Py.lower (Py.strip arg)) →
  let r := main pytest arg st in
  r.1 = Uncaught (Py.KeyError "2,")
  ∧ pytest_runs r.2 = pytest_runs st
  ∧ attempt_lines (stdout r.2) = attempt_lines (stdout st) + 1
  ∧ last (stdout r.2) = Some (Attempt 1 3)
  ∧ ∃ out, stdout r.2 = stdout st ++ out ∧ (Failed ∉ out) ∧ (∀ k, Success k ∉ out).
Proof.
  intros (pdf & golden & Hdata). cbv zeta.
  rewrite (main_inputs_present arg st pdf golden Hdata). cbn [fst snd stdout pytest_runs].
  split_and!; [done|done| | |].
  - rewrite attempt_lines_app. unfold attempt_lines at 2. simpl. done.
  - by rewrite (last_app _ [_; _; _]).
  - eexists. split; [done|]. split; [|intros k]; intros Hin;
      repeat (apply elem_of_cons in Hin as [Hin|Hin]; [discriminate Hin|]);
      by apply elem_of_nil in Hin.
Qed.

(** C4: the exit status of [main].  Status 2 is as the claim has it: when
    the folder, the document or the golden table is missing the process
    ends at once, before any file is written or any test is run.  The other
    two are not: with the inputs in place the status is 1 whatever the tests
    would say, and it is the status of the exception that ends the first
    attempt, not of [sys.exit(1)] after three failed ones (no test was run);
    status 0 is never reached. *)
Theorem main_exit_status (arg : string) (st : state) :
  let target := Py.lower (Py.strip arg) in
  let r := main pytest arg st in
  (inputs_missing st target →
     exit_status r.1 = 2%Z ∧ pytest_runs r.2 = pytest_runs st
     ∧ CUSTOM_DIR r.2 = CUSTOM_DIR st ∧ TESTS_DIR r.2 = TESTS_DIR st
     ∧ attempt_lines (stdout r.2) = attempt_lines (stdout st))
  ∧ (inputs_present st target →
       exit_status r.1 = 1%Z ∧ r.1 ≠ SysExit 1 ∧ pytest_runs r.2 = pytest_runs st)
  ∧ exit_status r.1 ≠ 0%Z.
Proof.
  cbv zeta. split_and!.
  - intros Hmiss. rewrite (main_inputs_missing arg st Hmiss).
    cbn [fst snd stdout pytest_runs CUSTOM_DIR TESTS_DIR exit_status].
    split_and!; [done..|].
    rewrite attempt_lines_app. unfold attempt_lines at 2.
    destruct (DATA_DIR st !! _); simpl; lia.
  - intros (pdf & golden & Hdata). rewrite (main_inputs_present arg st pdf golden Hdata).
    cbn [fst snd stdout pytest_runs exit_status]. done.
  - destruct (inputs_present_or_missing st (Py.lower (Py.strip arg)))
      as [(pdf & golden & Hdata)|Hmiss].
    + by rewrite (main_inputs_present arg st pdf golden Hdata).
    + by rewrite (main_inputs_missing arg st Hmiss).
Qed.

End Loop.

Lemma example_inputs_present : inputs_present example_state (Py.lower (Py.strip " ICICI ")).
Proof. exists [example_page], example_golden. reflexivity. Defined.

Lemma example_inputs_missing :
  inputs_missing example_state_no_csv (Py.lower (Py.strip " ICICI ")).
Proof.
  right. exists (mkFolder (Some [example_page]) None). split; [reflexivity|]. by right.
Defined.

Lemma main_ends_in_first_attempt_witness :
  let r := main (fun _ => true) " ICICI " example_state in
  r.1 = Uncaught (Py.KeyError "2,")
  ∧ pytest_runs r.2 = pytest_runs example_state
  ∧ attempt_lines (stdout r.2) = attempt_lines (stdout example_state) + 1
  ∧ last (stdout r.2) = Some (Attempt 1 3)
  ∧ ∃ out, stdout r.2 = stdout example_state ++ out ∧ (Failed ∉ out) ∧ (∀ k, Success k ∉ out).
Proof.
  apply (main_ends_in_first_attempt (fun _ => true) " ICICI " example_state).
  exact example_inputs_present.
Defined.

Lemma main_exit_status_witness :
  exit_status (main (fun _ => true) " ICICI " example_state_no_csv).1 = 2%Z
  ∧ exit_status (main (fun _ => true) " ICICI " example_state).1 = 1%Z.
Proof.
  split.
  - apply (proj1 (main_exit_status (fun _ => true) " ICICI " example_state_no_csv)).
    exact example_inputs_missing.
  - apply (proj1 (proj2 (main_exit_status (fun _ => true) " ICICI " example_state))).
    exact example_inputs_present.
Defined.

End AgentFacts.

(** * Further properties *)

(** ** The extractor, page by page *)

Module ExtractorMore.
Import Spec ParserFacts ExtractorFacts.

(** X1: the pages of a document are extracted independently of each other:
    the tables of two documents put end to end are the tables of the first
    followed by the tables of the second. *)
Theorem extract_tables_app (pdf1 pdf2 : list page) :
  _extract_tables (pdf1 ++ pdf2) = _extract_tables pdf1 ++ _extract_tables pdf2.
Proof.
  unfold _extract_tables. rewrite !fold_extract_page. simpl. apply omap_app.
Qed.

Local Open Scope string_scope.

Lemma splits_tokens line toks : splits line toks → toks ≠ [] ∧ Forall token toks.
Proof.
  induction 1 as [tok Htok|tok sep rest toks Htok Hsep Hrest [_ IH]].
  - split; [done|]. constructor; [done|constructor].
  - split; [done|]. by constructor.
Qed.

Lemma splits_starts line toks :
  splits line toks → line ≠ "" ∧ Py.starts_with_space line = false.
Proof.
  destruct 1 as [tok (Hne & _ & Hstart & _)|tok sep rest toks (Hne & _ & Hstart & _) _ _].
  - done.
  - split; [by destruct tok|]. by rewrite starts_with_space_app.
Qed.

(** Nothing to split in a piece without separator. *)
Lemma re_split_from_free (s tok : string) :
  separator_free s = true → Py.re_split_from false tok s = [tok ++ s].
Proof.
  revert tok. induction s as [|c s IH]; intros tok Hfree.
  { by rewrite append_nil_r. }
  cbn [Py.re_split_from separator_free] in *.
  destruct (Py.isspace c) eqn:Hc.
  - apply andb_true_iff in Hfree as [Hfree Hs]. apply andb_true_iff in Hfree as [Htab Hnext].
    apply negb_true_iff in Htab, Hnext. rewrite Hnext, Htab.
    rewrite IH by done. by rewrite append_snoc.
  - rewrite IH by done. by rewrite append_snoc.
Qed.

(** Inside a run of whitespace the rest of the run is consumed. *)
Lemma re_split_from_run (w rest tok : string) :
  all_space w = true → Py.starts_with_space rest = false →
  Py.re_split_from true tok (w ++ rest) = Py.re_split_from false tok rest.
Proof.
  intros Hw Hrest. induction w as [|c w IH].
  - rewrite append_Empty. destruct rest as [|c rest]; [done|].
    cbn [Py.re_split_from Py.starts_with_space] in *. by rewrite Hrest.
  - cbn [all_space] in Hw. apply andb_true_iff in Hw as [Hc Hw].
    rewrite append_String. cbn [Py.re_split_from]. rewrite Hc. by apply IH.
Qed.

(** A separator ends the piece being collected. *)
Lemma re_split_from_separator (sep rest tok : string) :
  separator sep → Py.starts_with_space rest = false →
  Py.re_split_from false tok (sep ++ rest) = tok :: Py.re_split_from false "" rest.
Proof.
  intros [->|[Hall Hlen]] Hrest.
  - rewrite append_String, append_Empty. cbn [Py.re_split_from].
    change (Py.isspace Py.TAB) with true. cbn iota. rewrite Hrest.
    by rewrite Ascii.eqb_refl.
  - destruct sep as [|c1 [|c2 w]]; [simpl in Hlen; lia..|].
    cbn [all_space] in Hall. apply andb_true_iff in Hall as [Hc1 Hall].
    rewrite append_String. cbn [Py.re_split_from]. rewrite Hc1.
    assert (Py.starts_with_space (String c2 w ++ rest) = true) as ->.
    { rewrite append_String. cbn [Py.starts_with_space].
      cbn [all_space] in Hall. by apply andb_true_iff in Hall as [-> _]. }
    f_equal. by apply re_split_from_run.
Qed.

Lemma re_split_from_token_then (piece sep rest tok : string) :
  separator_free piece = true → ends_with_space piece = false →
  separator sep → Py.starts_with_space rest = false →
  Py.re_split_from false tok (piece ++ sep ++ rest)
  = (tok ++ piece) :: Py.re_split_from false "" rest.
Proof.
  intros Hfree Hend Hsep Hrest. revert tok Hfree Hend.
  induction piece as [|c piece IH]; intros tok Hfree Hend.
  { rewrite append_Empty, append_nil_r. by apply re_split_from_separator. }
  rewrite append_String. cbn [Py.re_split_from separator_free] in *.
  assert (ends_with_space piece = false) as Hend'.
  { destruct piece; [done|]. by rewrite ends_with_space_cons in Hend. }
  destruct (Py.isspace c) eqn:Hc.
  - apply andb_true_iff in Hfree as [Hfree Hpiece].
    apply andb_true_iff in Hfree as [Htab Hnext].
    apply negb_true_iff in Htab, Hnext.
    assert (piece ≠ "") as Hne.
    { intros ->. cbn [ends_with_space] in Hend. congruence. }
    rewrite starts_with_space_app, Hnext, Htab by done.
    rewrite IH by done. by rewrite append_snoc.
  - rewrite IH by done. by rewrite append_snoc.
Qed.

(** X2: the reading of a line as tokens and separators decides what
    [re.split] returns: whenever a line is a sequence of tokens separated by
    lone TABs or runs of two or more whitespace characters, the split is
    exactly that sequence of tokens. *)
Theorem re_split_cols_complete (line : string) (toks : list string) :
  splits line toks → Py.re_split_cols line = toks.
Proof.
  unfold Py.re_split_cols.
  induction 1 as [tok (Hne & Hfree & Hstart & Hend)
                 |tok sep rest toks (Hne & Hfree & Hstart & Hend) Hsep Hrest IH].
  - by rewrite re_split_from_free.
  - rewrite re_split_from_token_then; [by rewrite IH| done..|].
    by apply splits_starts in Hrest as [_ ?].
Qed.

(** Joining tokens with two spaces gives a line that reads as these tokens. *)
Lemma splits_concat (toks : list string) :
  toks ≠ [] → Forall token toks → splits (String.concat "  " toks) toks.
Proof.
  induction toks as [|tok toks IH]; [done|]. intros _ Hall.
  apply Forall_cons in Hall as [Htok Hall].
  destruct toks as [|tok' toks].
  - by apply splits_last.
  - change (String.concat "  " (tok :: tok' :: toks))
      with (tok ++ "  " ++ String.concat "  " (tok' :: toks)).
    apply splits_sep; [done| |by apply IH].
    right. split; [done|]. simpl. lia.
Qed.

(** X3: a round trip.  Tokens joined by two spaces and split again are the
    same tokens: cells that hold no TAB, no two adjacent whitespace
    characters and no whitespace at their ends survive the text fallback. *)
Theorem re_split_cols_concat (toks : list string) :
  toks ≠ [] → Forall token toks →
  Py.re_split_cols (String.concat "  " toks) = toks.
Proof.
  unfold Py.re_split_cols.
  induction toks as [|tok toks IH]; [done|]. intros _ Hall.
  apply Forall_cons in Hall as [(Hne & Hfree & Hstart & Hend) Hall].
  destruct toks as [|tok' toks].
  - simpl. by rewrite re_split_from_free.
  - change (String.concat "  " (tok :: tok' :: toks))
      with (tok ++ "  " ++ String.concat "  " (tok' :: toks)).
    rewrite re_split_from_token_then; [by rewrite IH|done|done| |].
    + right. split; [done|]. simpl. lia.
    + by apply (splits_starts _ (tok' :: toks)), splits_concat.
Qed.

Lemma re_split_cols_concat_witness :
  Py.re_split_cols (String.concat "  " ["2024-01-01"; "Coffee shop"; "3.50"])
  = ["2024-01-01"; "Coffee shop"; "3.50"].
Proof.
  apply (re_split_cols_concat ["2024-01-01"; "Coffee shop"; "3.50"]).
  - discriminate.
  - repeat constructor; discriminate.
Defined.

Lemma re_split_cols_complete_witness :
  Py.re_split_cols ("Date" ++ String Py.TAB "Amount") = ["Date"; "Amount"].
Proof.
  apply (re_split_cols_complete ("Date" ++ String Py.TAB "Amount") ["Date"; "Amount"]).
  change ("Date" ++ String Py.TAB "Amount") with ("Date" ++ String Py.TAB "" ++ "Amount").
  apply splits_sep.
  - repeat split; discriminate.
  - by left.
  - apply splits_last. repeat split; discriminate.
Defined.

Local Close Scope string_scope.

Lemma extract_tables_nonempty (pdf : list page) :
  Forall (fun t => t ≠ []) (_extract_tables pdf).
Proof.
  unfold _extract_tables. rewrite fold_extract_page. simpl.
  apply Forall_forall. intros t (p & _ & Hp)%list_elem_of_omap.
  unfold page_table, structured_table in Hp.
  destruct (extract_table p) as [[|r t']|]; simplify_eq/=; try done.
  all: destruct (text_lines p); by simplify_eq/=.
Qed.

(** X4: no extracted table is empty, and a table taken from the text of a
    page has no empty row and no empty cell: every cell is a token, without
    TAB, without two adjacent whitespace characters and without whitespace
    at its ends. *)
Theorem extracted_tables_shape (pdf : list page) :
  Forall (fun t => t ≠ []) (_extract_tables pdf)
  ∧ ∀ p t, structured_table p = None → page_table p = Some t →
           Forall (fun row => row ≠ [] ∧ Forall token row) t.
Proof.
  split; [apply extract_tables_nonempty|].
  - intros p t Hs Hp. unfold page_table in Hp. rewrite Hs in Hp.
    destruct (text_lines p) as [|l ls] eqn:Hl; [done|].
    assert (t = Py.re_split_cols <$> l :: ls) as -> by congruence.
    apply Forall_fmap, Forall_forall. intros line Hline. simpl.
    rewrite <-Hl in Hline. apply text_lines_stripped in Hline as (Hne & Hstart & Hend).
    by apply (splits_tokens line), re_split_cols_splits.
Qed.

End ExtractorMore.

(** ** The align step, column by column *)

Module AlignMore.
Import Difflib Spec DifflibFacts ParserFacts.

(** X5: when several expected columns choose the same label, the last of
    them in schema order gets it: the mapping sends a label to the last
    expected column whose best close match is that label, and to nothing
    when there is none. *)
Theorem close_mapping_last (EXPECTED_COLUMNS cols : list string) (c : string) :
  close_mapping EXPECTED_COLUMNS cols !! c
  = last (filter (fun exp => get_close_matches exp cols = [c]) EXPECTED_COLUMNS).
Proof.
  rewrite close_mapping_fold.
  induction EXPECTED_COLUMNS as [|exp E IH] using rev_ind; [done|].
  rewrite fold_left_app, filter_app. cbn [fold_left]. unfold mapping_step at 1.
  destruct (get_close_matches_cases exp cols) as [Hm|(m & Hm & _)]; rewrite Hm.
  - rewrite filter_cons_False, filter_nil, app_nil_r by (by rewrite ?Hm). apply IH.
  - rewrite lookup_insert. destruct (decide (m = c)) as [->|Hne].
    + rewrite filter_cons_True, filter_nil by done. by rewrite last_snoc.
    + rewrite filter_cons_False, filter_nil, app_nil_r by (rewrite ?Hm; congruence).
      apply IH.
Qed.

(** X6: [align] keeps one row per data row of the table; in the fallback it
    keeps one row per row of the table, the header row included. *)
Theorem align_row_count (EXPECTED_COLUMNS : list string) (t : RawTable) :
  ∃ df, align EXPECTED_COLUMNS t = Ok df
        ∧ length (rows df)
          = if decide (structural_mismatch t) then length t else length (tail t).
Proof.
  eexists. split; [apply align_ok|]. cbn [rows].
  unfold rows_before_projection. cbv zeta. rewrite !length_fmap.
  destruct (decide (structural_mismatch t)) as [Hm|Hm].
  - rewrite table_frame_mismatch by done. unfold raw_frame. cbn [rows].
    by rewrite length_fmap.
  - rewrite table_frame_fits by done. cbn [rows]. by rewrite length_fmap.
Qed.

Lemma pick_app {A} cols1 cols2 (r1 r2 : list A) k :
  length cols1 = length r1 →
  pick (cols1 ++ cols2) (r1 ++ r2) k = pick cols1 r1 k ++ pick cols2 r2 k.
Proof.
  intros Hlen. unfold pick. rewrite zip_with_app by done. by rewrite filter_app, fmap_app.
Qed.

Lemma pick_list_to_map cols (r : list cell) k :
  NoDup cols → length r = length cols →
  pick cols r k = option_list ((list_to_map (zip cols r) : gmap string cell) !! k).
Proof.
  revert r. induction cols as [|c cols IH]; intros [|v r] Hnd Hlen; try done.
  apply NoDup_cons in Hnd as [Hc Hnd]. cbn [zip zip_with]. rewrite list_to_map_cons.
  destruct (decide (c = k)) as [->|Hne].
  - rewrite pick_cons_eq, pick_not_elem, lookup_insert_eq by done. done.
  - rewrite pick_cons_ne, lookup_insert_ne by done. apply IH; [done|by simplify_eq/=].
Qed.

Lemma aligned_rows_reindex (EXPECTED_COLUMNS : list string) (t : RawTable) :
  NoDup (normalize_label <$> columns (table_frame t)) →
  aligned_rows EXPECTED_COLUMNS t
  = (fun r : list cell =>
       (fun exp => default CNA
                     ((list_to_map (zip (renamed_labels EXPECTED_COLUMNS t) r)
                        : gmap string cell) !! exp))
         <$> EXPECTED_COLUMNS)
      <$> rows (table_frame t).
Proof.
  intros Hnd. unfold aligned_rows, renamed_labels. cbv zeta.
  set (cols0 := normalize_label <$> columns (table_frame t)).
  set (cols1 := rename_labels (close_mapping EXPECTED_COLUMNS cols0) cols0).
  pose proof (labels_before_projection_NoDup EXPECTED_COLUMNS t Hnd) as HndL.
  assert (NoDup cols1) as Hnd1
    by (by apply (rename_labels_NoDup EXPECTED_COLUMNS), close_mapping_ok).
  unfold rows_before_projection. cbv zeta. fold cols0. fold cols1.
  rewrite <-list_fmap_compose. apply list_fmap_ext. intros i r Hr. unfold compose.
  assert (length r = length cols1) as Hlen.
  { pose proof (table_frame_well_formed t) as Hwf.
    rewrite (proj1 (Forall_lookup _ _) Hwf i r Hr).
    unfold cols1, cols0, rename_labels. by rewrite !length_fmap. }
  unfold labels_before_projection in HndL |- *. cbv zeta in HndL |- *.
  fold cols0 in HndL |- *. fold cols1 in HndL |- *.
  set (miss := missing cols1 EXPECTED_COLUMNS) in *.
  rewrite select_pick.
  set (f := fun exp => default CNA
                ((list_to_map (zip cols1 r) : gmap string cell) !! exp)).
  transitivity (EXPECTED_COLUMNS ≫= fun exp => [f exp]).
  2: { generalize f. generalize EXPECTED_COLUMNS. clear. intros E f.
       induction E as [|e E IH]; [done|]. by rewrite bind_cons, fmap_cons, IH. }
  subst f. cbv beta.
  apply bind_ext_in. intros exp Hexp.
  rewrite pick_app by done. rewrite pick_list_to_map by done.
  apply NoDup_app in HndL as (_ & Hdisj & Hndm).
  destruct ((list_to_map (zip cols1 r) : gmap string cell) !! exp) as [v|] eqn:Hv.
  - rewrite pick_not_elem; [done|]. apply Hdisj.
    apply elem_of_list_to_map_2, elem_of_zip_l in Hv. done.
  - assert (exp ∈ miss) as Hmiss.
    { pose proof (missing_covers cols1 EXPECTED_COLUMNS exp Hexp) as Hin.
      apply elem_of_app in Hin as [Hin|Hin]; [|done].
      apply not_elem_of_list_to_map_2 in Hv. destruct Hv.
      rewrite fst_zip by lia. done. }
    destruct (pick_singleton miss (replicate (length miss) CNA) exp) as [w Hw];
      [done|by rewrite length_replicate|done|].
    rewrite Hw. simpl. f_equal.
    assert (w ∈ pick miss (replicate (length miss) CNA) exp) as Hin
      by (rewrite Hw; by left).
    apply pick_elem, elem_of_zip_r, elem_of_replicate_inv in Hin. done.
Qed.

(** X7: for a table whose normalized labels are pairwise distinct, [align]
    is a reindexing: the result has exactly the expected columns, and under
    each expected column every row holds the cell it had under the label
    renamed to that column, or the null sentinel when no label was. *)
Theorem align_reindex (EXPECTED_COLUMNS : list string) (t : RawTable) :
  NoDup (normalize_label <$> columns (table_frame t)) →
  let cols0 := normalize_label <$> columns (table_frame t) in
  let cols1 := rename_labels (close_mapping EXPECTED_COLUMNS cols0) cols0 in
  align EXPECTED_COLUMNS t
  = Ok (mkDataFrame EXPECTED_COLUMNS
          ((fun r : list cell =>
              (fun exp => default CNA ((list_to_map (zip cols1 r) : gmap string cell) !! exp))
                <$> EXPECTED_COLUMNS)
             <$> rows (table_frame t))).
Proof.
  intros Hnd cols0 cols1.
  pose proof (labels_before_projection_NoDup EXPECTED_COLUMNS t Hnd) as HndL.
  rewrite align_ok. f_equal. f_equal.
  - apply select_self; [done|]. intros k Hk. by apply missing_covers.
  - by apply (aligned_rows_reindex EXPECTED_COLUMNS t).
Qed.

Lemma align_reindex_witness :
  align example_schema [["date"; "desc"; "amt"]; ["2024-01-01"; " Coffee "; "3.50"]]
  = Ok (mkDataFrame example_schema [[CStr "2024-01-01"; CNA; CStr "3.50"]]).
Proof.
  rewrite (align_reindex example_schema
             [["date"; "desc"; "amt"]; ["2024-01-01"; " Coffee "; "3.50"]]).
  - vm_compute. reflexivity.
  - apply (bool_decide_unpack _). vm_compute. exact I.
Defined.

End AlignMore.

(** ** The whole parse *)

Module ParseMore.
Import Difflib Spec DifflibFacts ParserFacts ExtractorFacts ExtractorMore AlignMore.

Lemma lstrip_id s : Py.starts_with_space s = false → Py.lstrip s = s.
Proof. destruct s as [|c s]; simpl; [done|]. by intros ->. Qed.

Lemma rstrip_id s : ends_with_space s = false → Py.rstrip s = s.
Proof.
  induction s as [|c s IH]; [done|]. destruct s as [|d s].
  - simpl. by intros ->.
  - intros Hend. change (ends_with_space (String d s) = false) in Hend.
    change (Py.rstrip (String c (String d s)))
      with (match Py.rstrip (String d s) with
            | EmptyString => if Py.isspace c then EmptyString else String c EmptyString
            | r => String c r
            end).
    by rewrite (IH Hend).
Qed.

Lemma strip_idem s : Py.strip (Py.strip s) = Py.strip s.
Proof.
  destruct (strip_spec s) as (pre & post & _ & _ & _ & Hstart & Hend).
  unfold Py.strip at 1. by rewrite (lstrip_id _ Hstart), (rstrip_id _ Hend).
Qed.

Lemma str_strip_clean x : clean (str_strip x).
Proof. eexists. split; [done|]. apply strip_idem. Qed.

Lemma str_strip_id x : clean x → str_strip x = x.
Proof. intros (s & -> & Hs). unfold str_strip. simpl. by rewrite Hs. Qed.

(** *** Counting the columns under a label *)

Lemma carriers_cons_eq k cols : carriers k (k :: cols) = S (carriers k cols).
Proof. unfold carriers. by rewrite filter_cons_True. Qed.

Lemma carriers_cons_ne c k cols : c ≠ k → carriers k (c :: cols) = carriers k cols.
Proof. intros Hne. unfold carriers. by rewrite filter_cons_False. Qed.

Lemma carriers_app k cols1 cols2 :
  carriers k (cols1 ++ cols2) = carriers k cols1 + carriers k cols2.
Proof. unfold carriers. by rewrite filter_app, length_app. Qed.

Lemma carriers_0 k cols : k ∉ cols → carriers k cols = 0.
Proof.
  induction cols as [|c cols IH]; [done|]. intros Hk.
  apply not_elem_of_cons in Hk as [Hne Hk]. rewrite carriers_cons_ne by done. auto.
Qed.

Lemma carriers_pos k cols : k ∈ cols → 1 ≤ carriers k cols.
Proof.
  induction cols as [|c cols IH]; intros Hk; [by apply elem_of_nil in Hk|].
  destruct (decide (c = k)) as [->|Hne].
  - rewrite carriers_cons_eq. lia.
  - rewrite carriers_cons_ne by done. apply IH.
    apply elem_of_cons in Hk as [?|?]; [congruence|done].
Qed.

Lemma carriers_le k c cols : carriers k cols ≤ carriers k (c :: cols).
Proof.
  destruct (decide (c = k)) as [->|Hne].
  - rewrite carriers_cons_eq. lia.
  - by rewrite carriers_cons_ne.
Qed.

Lemma NoDup_carriers cols :
  NoDup cols ↔ Forall (fun c => carriers c cols = 1) cols.
Proof.
  split.
  - intros Hnd. apply Forall_forall. intros c Hc. by apply filter_eq_NoDup.
  - induction cols as [|c cols IH]; intros Hall; [constructor|].
    apply Forall_cons in Hall as [Hc Hall]. rewrite carriers_cons_eq in Hc.
    constructor.
    + intros Hin. apply carriers_pos in Hin. lia.
    + apply IH. apply Forall_forall. intros d Hd.
      pose proof (proj1 (Forall_forall _ _) Hall d Hd) as Hd1. simpl in Hd1.
      pose proof (carriers_le d c cols). pose proof (carriers_pos d cols Hd). lia.
Qed.

Lemma pick_length {A} cols (r : list A) k :
  length r = length cols → length (pick cols r k) = carriers k cols.
Proof.
  revert r. induction cols as [|c cols IH]; intros [|v r] Hlen; try done.
  destruct (decide (c = k)) as [->|Hne].
  - rewrite pick_cons_eq, carriers_cons_eq. simpl. f_equal. apply IH. by simplify_eq/=.
  - rewrite pick_cons_ne, carriers_cons_ne by done. apply IH. by simplify_eq/=.
Qed.

Lemma pick_self_replicate cols k : pick cols cols k = replicate (carriers k cols) k.
Proof.
  induction cols as [|c cols IH]; [done|].
  destruct (decide (c = k)) as [->|Hne].
  - rewrite pick_cons_eq, carriers_cons_eq, IH. done.
  - rewrite pick_cons_ne, carriers_cons_ne by done. apply IH.
Qed.

Lemma select_length_any {A} cols keys (r : list A) :
  length r = length cols → length (select cols keys r) = length (select cols keys cols).
Proof.
  intros Hlen. rewrite !select_pick.
  induction keys as [|k keys IH]; [done|].
  rewrite !bind_cons, !length_app, IH. f_equal.
  rewrite !pick_length; done.
Qed.

Lemma NoDup_bind_replicate (n : string → nat) (keys : list string) :
  (∀ k, k ∈ keys → 1 ≤ n k) →
  NoDup (keys ≫= fun k => replicate (n k) k) ↔ NoDup keys ∧ ∀ k, k ∈ keys → n k = 1.
Proof.
  intros Hpos. split.
  - induction keys as [|k keys IH]; intros Hnd.
    { split; [constructor|]. intros k Hk. by apply elem_of_nil in Hk. }
    rewrite bind_cons in Hnd. apply NoDup_app in Hnd as (Hk & Hdisj & Hrest).
    destruct IH as [IHnd IHn]; [intros; apply Hpos; by right|done|].
    assert (1 ≤ n k) as Hk1 by (apply Hpos; by left).
    assert (n k = 1) as Hnk.
    { destruct (n k) as [|[|m]]; [lia|done|].
      simpl in Hk. apply NoDup_cons in Hk as [Hk _]. destruct Hk. by left. }
    split.
    + constructor; [|done]. intros Hin. apply (Hdisj k).
      * rewrite Hnk. by left.
      * apply list_elem_of_bind. exists k. split; [|done].
        rewrite (IHn k Hin). by left.
    + intros k' [->|Hk']%elem_of_cons; auto.
  - intros [Hnd Hn].
    assert (keys ≫= (fun k => replicate (n k) k) = keys) as ->; [|done].
    clear Hnd Hpos. induction keys as [|k keys IH]; [done|].
    rewrite bind_cons, IH, Hn; [done|by left|]. intros; apply Hn; by right.
Qed.

(** *** The labels that [ensure_columns] appends *)

Lemma missing_fresh cols keys :
  NoDup (missing cols keys) ∧ ∀ k, k ∈ missing cols keys → k ∉ cols.
Proof.
  revert cols. induction keys as [|k keys IH]; intros cols; simpl.
  { split; [constructor|]. intros k Hk. by apply elem_of_nil in Hk. }
  destruct (decide (k ∈ cols)) as [Hk|Hk]; [apply IH|].
  destruct (IH (cols ++ [k])) as [Hnd Hfresh]. split.
  - constructor; [|done]. intros Hin. apply (Hfresh k Hin).
    apply elem_of_app. right. by left.
  - intros k' [->|Hk']%elem_of_cons; [done|].
    intros Hin. apply (Hfresh k' Hk'). apply elem_of_app. by left.
Qed.

Lemma carriers_labels (EXPECTED_COLUMNS : list string) (t : RawTable) k :
  k ∈ EXPECTED_COLUMNS →
  carriers k (labels_before_projection EXPECTED_COLUMNS t)
  = if decide (k ∈ renamed_labels EXPECTED_COLUMNS t)
    then carriers k (renamed_labels EXPECTED_COLUMNS t) else 1.
Proof.
  intros Hk. unfold labels_before_projection. cbv zeta.
  fold (renamed_labels EXPECTED_COLUMNS t).
  set (cols1 := renamed_labels EXPECTED_COLUMNS t).
  destruct (missing_fresh cols1 EXPECTED_COLUMNS) as [Hnd Hfresh].
  rewrite carriers_app. destruct (decide (k ∈ cols1)) as [Hin|Hin].
  - rewrite (carriers_0 k (missing _ _)); [lia|]. intros Hm. by apply (Hfresh k Hm).
  - rewrite (carriers_0 k cols1) by done. simpl.
    apply filter_eq_NoDup; [done|].
    pose proof (missing_covers cols1 EXPECTED_COLUMNS k Hk) as Hc.
    apply elem_of_app in Hc as [?|?]; done.
Qed.

Lemma carriers_labels_pos (EXPECTED_COLUMNS : list string) (t : RawTable) k :
  k ∈ EXPECTED_COLUMNS → 1 ≤ carriers k (labels_before_projection EXPECTED_COLUMNS t).
Proof. intros Hk. apply carriers_pos. by apply missing_covers. Qed.

(** *** The aligned frames *)

Lemma align_aligned_frame (EXPECTED_COLUMNS : list string) (t : RawTable) :
  align EXPECTED_COLUMNS t = Ok (aligned_frame EXPECTED_COLUMNS t).
Proof. apply align_ok. Qed.

Lemma aligned_frame_well_formed (EXPECTED_COLUMNS : list string) (t : RawTable) :
  well_formed (aligned_frame EXPECTED_COLUMNS t).
Proof.
  unfold well_formed, aligned_frame, aligned_rows. cbn [columns rows].
  apply Forall_fmap, Forall_forall. intros r Hr. simpl.
  apply select_length_any.
  unfold rows_before_projection in Hr. cbv zeta in Hr.
  apply list_elem_of_fmap in Hr as (r0 & -> & Hr0).
  pose proof (proj1 (Forall_forall _ _) (table_frame_well_formed t) r0 Hr0) as Hlen.
  simpl in Hlen. unfold labels_before_projection. cbv zeta.
  rewrite !length_app, length_replicate, Hlen. f_equal.
  unfold rename_labels. by rewrite !length_fmap.
Qed.

Lemma aligned_frame_NoDup (EXPECTED_COLUMNS : list string) (t : RawTable) :
  NoDup (columns (aligned_frame EXPECTED_COLUMNS t))
  ↔ NoDup EXPECTED_COLUMNS ∧ unambiguous EXPECTED_COLUMNS t.
Proof.
  unfold aligned_frame. cbn [columns]. rewrite select_pick.
  rewrite (bind_ext_in _ (fun k =>
             replicate (carriers k (labels_before_projection EXPECTED_COLUMNS t)) k))
    by (intros; apply pick_self_replicate).
  rewrite NoDup_bind_replicate by (intros; by apply carriers_labels_pos).
  split; intros [Hnd Hc]; (split; [done|]); intros k Hk; specialize (Hc k Hk).
  - rewrite carriers_labels in Hc by done.
    destruct (decide _) as [Hin|Hin]; [lia|]. rewrite carriers_0 by done. lia.
  - rewrite carriers_labels by done.
    destruct (decide _) as [Hin|Hin]; [|done]. apply carriers_pos in Hin. lia.
Qed.

Lemma aligned_frame_columns (EXPECTED_COLUMNS : list string) (t : RawTable) :
  NoDup (columns (aligned_frame EXPECTED_COLUMNS t)) →
  columns (aligned_frame EXPECTED_COLUMNS t) = EXPECTED_COLUMNS.
Proof.
  intros Hnd. unfold aligned_frame in *. cbn [columns] in *.
  rewrite select_pick in *.
  rewrite (bind_ext_in _ (fun k =>
             replicate (carriers k (labels_before_projection EXPECTED_COLUMNS t)) k))
    in * by (intros; apply pick_self_replicate).
  apply NoDup_bind_replicate in Hnd as [_ Hn]; [|intros; by apply carriers_labels_pos].
  revert Hn. generalize (labels_before_projection EXPECTED_COLUMNS t). intros L Hn.
  induction EXPECTED_COLUMNS as [|k keys IH]; [done|].
  rewrite bind_cons, IH, Hn; [done|by left|]. intros; apply Hn; by right.
Qed.

Lemma parse_candidates_fold (EXPECTED_COLUMNS : list string) tables acc :
  fold_left
    (fun acc t =>
       candidates ← acc;
       match t with
       | [] => Ok candidates
       | _ => df ← align EXPECTED_COLUMNS t; Ok (candidates ++ [df])
       end)
    tables (Ok acc)
  = Ok (acc ++ (aligned_frame EXPECTED_COLUMNS <$> filter (fun t => t ≠ []) tables)).
Proof.
  revert acc. induction tables as [|t tables IH]; intros acc.
  { simpl. by rewrite app_nil_r. }
  cbn [fold_left]. destruct t as [|r t].
  - rewrite filter_cons_False by (by intros ?). apply IH.
  - rewrite filter_cons_True by done. rewrite fmap_cons.
    change (Ok acc ≫= _) with
      (df ← align EXPECTED_COLUMNS (r :: t); Ok (acc ++ [df])).
    rewrite align_aligned_frame.
    change (Ok (aligned_frame EXPECTED_COLUMNS (r :: t)) ≫= _) with
      (Ok (A := list DataFrame) (acc ++ [aligned_frame EXPECTED_COLUMNS (r :: t)])).
    rewrite IH, <-app_assoc. done.
Qed.

Lemma parse_assemble (EXPECTED_COLUMNS : list string) (pdf : list page) :
  parse EXPECTED_COLUMNS pdf
  = assemble EXPECTED_COLUMNS (aligned_frame EXPECTED_COLUMNS <$> _extract_tables pdf).
Proof.
  unfold parse, parse_candidates. rewrite parse_candidates_fold. simpl.
  do 2 f_equal.
  pose proof (extract_tables_nonempty pdf) as Hne.
  induction Hne as [|t ts Ht _ IH]; [done|]. rewrite filter_cons_True by done.
  by rewrite IH.
Qed.

(** *** The cleanup on repeated labels *)

Lemma cleanup_fold_raise todo e :
  fold_left (fun acc c => result ← acc; strip_column result c) todo (Raise e) = Raise e.
Proof. induction todo as [|c todo IH]; [done|]. simpl. apply IH. Qed.

Lemma strip_column_cases df c :
  c ∈ columns df →
  (carriers c (columns df) = 1 ∧ ∃ df', strip_column df c = Ok df' ∧ columns df' = columns df)
  ∨ (carriers c (columns df) ≠ 1 ∧ strip_column df c = Raise AttributeError).
Proof.
  intros Hc. apply carriers_pos in Hc. unfold strip_column. unfold carriers in *.
  destruct (length _) as [|[|n]]; [lia| |].
  - left. split; [done|]. eexists. split; [done|]. done.
  - right. split; [lia|done].
Qed.

Lemma cleanup_fold_cases todo df :
  (∀ c, c ∈ todo → c ∈ columns df) →
  (Forall (fun c => carriers c (columns df) = 1) todo
   ∧ ∃ df', fold_left (fun acc c => result ← acc; strip_column result c) todo (Ok df)
            = Ok df' ∧ columns df' = columns df)
  ∨ (¬ Forall (fun c => carriers c (columns df) = 1) todo
     ∧ fold_left (fun acc c => result ← acc; strip_column result c) todo (Ok df)
       = Raise AttributeError).
Proof.
  revert df. induction todo as [|c todo IH]; intros df Htodo.
  { left. split; [constructor|]. by exists df. }
  cbn [fold_left]. change (Ok df ≫= _) with (strip_column df c).
  destruct (strip_column_cases df c) as [(Hc & df' & -> & Hcols)|(Hc & ->)];
    [apply Htodo; by left| |].
  - destruct (IH df') as [(Hall & df'' & Hf & Hcols')|(Hall & Hf)].
    + intros c' Hc'. rewrite Hcols. apply Htodo. by right.
    + left. split; [constructor; [done|by rewrite <-Hcols]|].
      exists df''. split; [done|congruence].
    + right. split; [|done]. intros Hall'. apply Hall.
      apply Forall_cons in Hall' as [_ Hall']. by rewrite Hcols.
  - right. split; [|apply cleanup_fold_raise].
    intros Hall. by apply Forall_cons in Hall as [? _].
Qed.

(** X8: the cleanup succeeds exactly on frames whose labels are pairwise
    distinct, and then keeps the labels; on a frame with a repeated label it
    raises [AttributeError] (the column selected by that label is a frame,
    which has no [.str]). *)
Theorem cleanup_ok_iff_NoDup (result : DataFrame) :
  (NoDup (columns result) → ∃ df, cleanup result = Ok df ∧ columns df = columns result)
  ∧ (¬ NoDup (columns result) → cleanup result = Raise AttributeError).
Proof.
  unfold cleanup, object_columns.
  destruct (cleanup_fold_cases (columns result) result) as [(Hall & Hok)|(Hall & Hraise)];
    [done| |].
  - split; [done|]. intros Hnd. destruct Hnd. by apply NoDup_carriers.
  - split; [|done]. intros Hnd. destruct Hall. by apply NoDup_carriers.
Qed.

Lemma cleanup_dup (result : DataFrame) :
  ¬ NoDup (columns result) → cleanup result = Raise AttributeError.
Proof.
  intros Hnd. unfold cleanup, object_columns.
  destruct (cleanup_fold_cases (columns result) result) as [(Hall & _)|(_ & Hraise)];
    [done| |done].
  destruct Hnd. by apply NoDup_carriers.
Qed.

Lemma assemble_dup (EXPECTED_COLUMNS : list string) (candidates : list DataFrame) :
  candidates ≠ [] → ¬ Forall (fun g => NoDup (columns g)) candidates →
  assemble EXPECTED_COLUMNS candidates = Raise AttributeError
  ∨ assemble EXPECTED_COLUMNS candidates = Raise InvalidIndexError.
Proof.
  destruct candidates as [|f fs]; [done|]. intros _ Hdup.
  unfold assemble, concat. destruct fs as [|g fs].
  { left. change (Ok ?d ≫= _) with (cleanup d). apply cleanup_dup. cbn [columns].
    intros Hnd. apply Hdup. by constructor. }
  destruct (decide (Forall (fun h => columns h = columns f) (g :: fs))) as [Hsame|Hdiff].
  - left. change (Ok ?d ≫= _) with (cleanup d). apply cleanup_dup. cbn [columns].
    intros Hnd. apply Hdup. constructor; [done|].
    eapply Forall_impl; [exact Hsame|]. intros h Hh. simpl in Hh. by rewrite Hh.
  - right. by rewrite decide_False.
Qed.

(** *** The result of [parse] *)

Lemma assemble_aligned (EXPECTED_COLUMNS : list string) (tables : list RawTable) :
  tables ≠ [] →
  (NoDup EXPECTED_COLUMNS ∧ Forall (unambiguous EXPECTED_COLUMNS) tables
   ∧ assemble EXPECTED_COLUMNS (aligned_frame EXPECTED_COLUMNS <$> tables)
     = Ok (mkDataFrame EXPECTED_COLUMNS (parsed_rows EXPECTED_COLUMNS tables)))
  ∨ (¬ (NoDup EXPECTED_COLUMNS ∧ Forall (unambiguous EXPECTED_COLUMNS) tables)
     ∧ (assemble EXPECTED_COLUMNS (aligned_frame EXPECTED_COLUMNS <$> tables)
        = Raise AttributeError
        ∨ assemble EXPECTED_COLUMNS (aligned_frame EXPECTED_COLUMNS <$> tables)
          = Raise InvalidIndexError)).
Proof.
  intros Hne.
  set (cands := aligned_frame EXPECTED_COLUMNS <$> tables).
  assert (cands ≠ []) as Hcne by (subst cands; by destruct tables).
  destruct (decide (Forall (fun g => NoDup (columns g)) cands)) as [Hall|Hdup].
  - left.
    assert (∀ t, t ∈ tables → NoDup EXPECTED_COLUMNS ∧ unambiguous EXPECTED_COLUMNS t)
      as Ht.
    { intros t Hin. apply aligned_frame_NoDup.
      apply (proj1 (Forall_forall _ _) Hall). subst cands.
      apply list_elem_of_fmap. by exists t. }
    assert (NoDup EXPECTED_COLUMNS) as Hnd.
    { destruct tables as [|t ts]; [done|]. apply (Ht t). by left. }
    split_and!; [done|apply Forall_forall; intros t Hin; by apply Ht|].
    rewrite assemble_spec; [|done|done|].
    + done.
    + subst cands. apply Forall_fmap, Forall_forall. intros t Hin. simpl.
      split; [|apply aligned_frame_well_formed].
      apply aligned_frame_columns, aligned_frame_NoDup. by apply Ht.
  - right. split; [|by apply assemble_dup].
    intros [Hnd Hall]. apply Hdup. subst cands.
    apply Forall_fmap, Forall_forall. intros t Hin. simpl.
    apply aligned_frame_NoDup. split; [done|].
    by apply (proj1 (Forall_forall _ _) Hall).
Qed.

Lemma parse_cases (EXPECTED_COLUMNS : list string) (pdf : list page) :
  ((_extract_tables pdf = []
    ∨ (NoDup EXPECTED_COLUMNS ∧ Forall (unambiguous EXPECTED_COLUMNS) (_extract_tables pdf)))
   ∧ parse EXPECTED_COLUMNS pdf
     = Ok (mkDataFrame EXPECTED_COLUMNS (parsed_rows EXPECTED_COLUMNS (_extract_tables pdf))))
  ∨ (_extract_tables pdf ≠ []
     ∧ ¬ (NoDup EXPECTED_COLUMNS ∧ Forall (unambiguous EXPECTED_COLUMNS) (_extract_tables pdf))
     ∧ (parse EXPECTED_COLUMNS pdf = Raise AttributeError
        ∨ parse EXPECTED_COLUMNS pdf = Raise InvalidIndexError)).
Proof.
  rewrite parse_assemble.
  destruct (_extract_tables pdf) as [|t ts] eqn:Ht.
  { left. split; [by left|done]. }
  rewrite <-Ht. assert (_extract_tables pdf ≠ []) as Hne by (by rewrite Ht).
  clear Ht. destruct (assemble_aligned EXPECTED_COLUMNS _ Hne)
    as [(Hnd & Hall & Hok)|(Hno & Hraise)].
  - left. split; [by right|done].
  - right. done.
Qed.

Lemma parse_ok_intro (EXPECTED_COLUMNS : list string) (pdf : list page) rws :
  (_extract_tables pdf = []
   ∨ (NoDup EXPECTED_COLUMNS ∧ Forall (unambiguous EXPECTED_COLUMNS) (_extract_tables pdf))) →
  parsed_rows EXPECTED_COLUMNS (_extract_tables pdf) = rws →
  parse EXPECTED_COLUMNS pdf = Ok (mkDataFrame EXPECTED_COLUMNS rws).
Proof.
  intros Hc <-.
  destruct (parse_cases EXPECTED_COLUMNS pdf) as [[_ Hok]|(Hne & Hno & _)]; [done|].
  destruct Hc; done.
Qed.

(** X9: [parse] returns a frame exactly when the document has no table at
    all, or the schema has no repeated column and in every table no expected
    column is carried by two columns after renaming; the frame then has the
    schema as its columns and the aligned rows of the tables, in page order,
    as the concatenation and the cleanup leave them: every cell is turned
    into text and stripped, and the [pd.NA] of a column a table lacks comes
    out as "<NA>" when the document has one table, as "nan" when it has
    several. *)
Theorem parse_ok_iff (EXPECTED_COLUMNS : list string) (pdf : list page) (df : DataFrame) :
  parse EXPECTED_COLUMNS pdf = Ok df
  ↔ (_extract_tables pdf = []
     ∨ (NoDup EXPECTED_COLUMNS
        ∧ Forall (unambiguous EXPECTED_COLUMNS) (_extract_tables pdf)))
    ∧ df = mkDataFrame EXPECTED_COLUMNS
             (parsed_rows EXPECTED_COLUMNS (_extract_tables pdf)).
Proof.
  destruct (parse_cases EXPECTED_COLUMNS pdf) as [[Hc Hok]|(Hne & Hno & Hraise)].
  - rewrite Hok. split; [by intros [= <-]|by intros [_ ->]].
  - split.
    + intros Hok. destruct Hraise as [Hr|Hr]; congruence.
    + intros [[Hnil|Hyes] _]; done.
Qed.

Lemma parsed_rows_well_formed (EXPECTED_COLUMNS : list string) (tables : list RawTable) :
  NoDup EXPECTED_COLUMNS → Forall (unambiguous EXPECTED_COLUMNS) tables →
  Forall (fun r => length r = length EXPECTED_COLUMNS)
    (parsed_rows EXPECTED_COLUMNS tables).
Proof.
  intros Hnd Hall. unfold parsed_rows. apply Forall_fmap.
  eapply Forall_impl;
    [apply (stacked_well_formed EXPECTED_COLUMNS)|by intros r Hr; simpl; rewrite length_fmap].
  apply Forall_fmap, Forall_forall. intros t Ht. simpl.
  split; [|apply aligned_frame_well_formed].
  apply aligned_frame_columns, aligned_frame_NoDup. split; [done|].
  by apply (proj1 (Forall_forall _ _) Hall).
Qed.

Lemma parsed_rows_clean (EXPECTED_COLUMNS : list string) (tables : list RawTable) :
  Forall (Forall clean) (parsed_rows EXPECTED_COLUMNS tables).
Proof.
  unfold parsed_rows. apply Forall_fmap, Forall_forall. intros r _. simpl.
  apply Forall_fmap, Forall_forall. intros x _. apply str_strip_clean.
Qed.

(** X11: a frame returned by [parse] has exactly the columns of the schema,
    every row as wide as the schema, and in every cell a text without
    whitespace at its ends (no null is left: the cleanup has turned each into
    text). *)
Theorem parse_postcondition (EXPECTED_COLUMNS : list string) (pdf : list page)
    (df : DataFrame) :
  parse EXPECTED_COLUMNS pdf = Ok df →
  columns df = EXPECTED_COLUMNS ∧ well_formed df ∧ Forall (Forall clean) (rows df).
Proof.
  intros Hok.
  destruct (parse_cases EXPECTED_COLUMNS pdf) as [[Hc Hok']|(_ & _ & [Hr|Hr])];
    [|congruence..].
  rewrite Hok' in Hok. injection Hok as <-. cbn [columns rows].
  split_and!; [done| |apply parsed_rows_clean].
  unfold well_formed. cbn [columns rows].
  destruct Hc as [->|[Hnd Hall]]; [constructor|by apply parsed_rows_well_formed].
Qed.

Lemma aligned_rows_length (EXPECTED_COLUMNS : list string) (t : RawTable) :
  length (aligned_rows EXPECTED_COLUMNS t) = row_count t.
Proof.
  unfold aligned_rows, rows_before_projection, row_count. cbv zeta.
  rewrite !length_fmap.
  destruct (decide (structural_mismatch t)) as [Hm|Hm].
  - rewrite table_frame_mismatch by done. unfold raw_frame. cbn [rows].
    by rewrite length_fmap.
  - rewrite table_frame_fits by done. cbn [rows]. by rewrite length_fmap.
Qed.

Lemma stacked_length (frames : list DataFrame) :
  length (stacked frames) = sum_list ((fun g => length (rows g)) <$> frames).
Proof.
  assert (length (mjoin (refilled <$> frames))
          = sum_list ((fun g => length (rows g)) <$> frames)) as Hjoin.
  { rewrite length_join, <-list_fmap_compose. f_equal.
    apply list_fmap_ext. intros _ g _. simpl. unfold refilled. by rewrite length_fmap. }
  unfold stacked. destruct frames as [|f [|g fs]]; [done| |done].
  simpl. lia.
Qed.

(** X12: no row is lost, merged or invented on the way: the frame returned by
    [parse] has as many rows as the tables of all pages have data rows (all
    their rows, for a table whose data rows do not fit its header). *)
Theorem parse_row_count (EXPECTED_COLUMNS : list string) (pdf : list page)
    (df : DataFrame) :
  parse EXPECTED_COLUMNS pdf = Ok df →
  length (rows df) = sum_list (row_count <$> _extract_tables pdf).
Proof.
  intros Hok.
  destruct (parse_cases EXPECTED_COLUMNS pdf) as [[_ Hok']|(_ & _ & [Hr|Hr])];
    [|congruence..].
  rewrite Hok' in Hok. injection Hok as <-. cbn [rows]. unfold parsed_rows.
  rewrite length_fmap, stacked_length, <-list_fmap_compose. f_equal.
  apply list_fmap_ext. intros _ t _. apply aligned_rows_length.
Qed.

(** X13: the normalization the generated test applies to the parser's output
    before comparing (line 103) changes nothing: the frame [parse] returns is
    already normalized. *)
Theorem normalize_parse_noop (EXPECTED_COLUMNS : list string) (pdf : list page)
    (df : DataFrame) :
  parse EXPECTED_COLUMNS pdf = Ok df → normalize_for_comparison df = df.
Proof.
  intros Hok.
  destruct (parse_cases EXPECTED_COLUMNS pdf) as [[_ Hok']|(_ & _ & [Hr|Hr])];
    [|congruence..].
  rewrite Hok' in Hok. injection Hok as <-.
  unfold normalize_for_comparison. cbn [columns rows]. f_equal.
  transitivity (id <$> parsed_rows EXPECTED_COLUMNS (_extract_tables pdf));
    [|apply list_fmap_id].
  apply Forall_fmap_ext_1. eapply Forall_impl; [apply parsed_rows_clean|].
  intros r Hr. simpl. transitivity (id <$> r); [|apply list_fmap_id].
  apply Forall_fmap_ext_1. eapply Forall_impl; [exact Hr|].
  intros x Hx. by apply str_strip_id.
Qed.

Lemma mapping_exact (EXPECTED_COLUMNS : list string) (c : string) :
  default c (close_mapping EXPECTED_COLUMNS EXPECTED_COLUMNS !! c) = c.
Proof.
  destruct (close_mapping EXPECTED_COLUMNS EXPECTED_COLUMNS !! c) as [e|] eqn:He; [|done].
  apply close_mapping_ok in He as [Hm He].
  rewrite (get_close_matches_exact e EXPECTED_COLUMNS He) in Hm. simpl. congruence.
Qed.

Lemma fits_width (header : list string) (data : list (list string)) :
  ¬ structural_mismatch (header :: data) →
  Forall (fun r => length r ≤ length header) data.
Proof.
  intros Hfit. apply Forall_forall. intros r Hr.
  destruct (decide (max_list (length <$> data) = length header)) as [<-|Hne].
  - apply max_list_elem_of_le, list_elem_of_fmap. by exists r.
  - destruct Hfit. split; [|done]. simpl. intros ->. by apply elem_of_nil in Hr.
Qed.

Lemma aligned_rows_exact (EXPECTED_COLUMNS : list string) (data : list (list string)) :
  NoDup EXPECTED_COLUMNS →
  Forall (fun e => normalize_label e = e) EXPECTED_COLUMNS →
  ¬ structural_mismatch (EXPECTED_COLUMNS :: data) →
  renamed_labels EXPECTED_COLUMNS (EXPECTED_COLUMNS :: data) = EXPECTED_COLUMNS
  ∧ aligned_rows EXPECTED_COLUMNS (EXPECTED_COLUMNS :: data)
    = pad (length EXPECTED_COLUMNS) <$> data.
Proof.
  intros Hnd Hnorm Hfit.
  assert (normalize_label <$> EXPECTED_COLUMNS = EXPECTED_COLUMNS) as Hcols0.
  { transitivity (id <$> EXPECTED_COLUMNS); [|apply list_fmap_id].
    by apply Forall_fmap_ext_1. }
  assert (renamed_labels EXPECTED_COLUMNS (EXPECTED_COLUMNS :: data) = EXPECTED_COLUMNS)
    as Hren.
  { unfold renamed_labels. cbv zeta. rewrite table_frame_fits by done.
    cbn [columns hd]. rewrite Hcols0. unfold rename_labels.
    transitivity (id <$> EXPECTED_COLUMNS); [|apply list_fmap_id].
    apply list_fmap_ext. intros _ c _. apply mapping_exact. }
  split; [done|].
  unfold aligned_rows, labels_before_projection, rows_before_projection. cbv zeta.
  fold (renamed_labels EXPECTED_COLUMNS (EXPECTED_COLUMNS :: data)). rewrite Hren.
  rewrite missing_nil by done. rewrite app_nil_r.
  rewrite table_frame_fits by done. cbn [rows hd tail].
  rewrite <-!list_fmap_compose. apply Forall_fmap_ext_1.
  eapply Forall_impl; [exact (fits_width _ _ Hfit)|]. intros r Hr. simpl in *.
  rewrite app_nil_r. apply select_id; [done|]. by apply length_pad.
Qed.

(** X15: a page whose table has exactly the schema as its header row, and
    data rows that fit it, is parsed to those rows, every cell stripped:
    nothing is renamed, added, dropped or reordered; a row narrower than the
    header (beside a row of full width) is completed with the text "None".
    (The schema is free of repeated columns and its labels are in normal
    form.) *)
Theorem parse_exact_header (EXPECTED_COLUMNS : list string) (data : list (list string))
    (text : option string) :
  NoDup EXPECTED_COLUMNS →
  Forall (fun e => normalize_label e = e) EXPECTED_COLUMNS →
  ¬ structural_mismatch (EXPECTED_COLUMNS :: data) →
  parse EXPECTED_COLUMNS [mkPage (Some (EXPECTED_COLUMNS :: data)) text]
  = Ok (mkDataFrame EXPECTED_COLUMNS
          ((fun r : list string =>
              ((fun s => CStr (Py.strip s)) <$> r)
                ++ replicate (length EXPECTED_COLUMNS - length r) (CStr "None"))
             <$> data)).
Proof.
  intros Hnd Hnorm Hfit.
  destruct (aligned_rows_exact EXPECTED_COLUMNS data Hnd Hnorm Hfit) as [Hren Hrows].
  apply parse_ok_intro.
  - right. split; [done|]. constructor; [|constructor].
    intros k Hk. rewrite Hren. unfold carriers. by rewrite filter_eq_NoDup.
  - unfold parsed_rows. change (_extract_tables _) with [EXPECTED_COLUMNS :: data].
    cbn [fmap list_fmap stacked aligned_frame rows]. rewrite Hrows, <-list_fmap_compose.
    apply list_fmap_ext. intros _ r _. simpl. unfold pad.
    by rewrite fmap_app, fmap_replicate, <-list_fmap_compose.
Qed.

Lemma renamed_labels_raw (EXPECTED_COLUMNS : list string) (t : RawTable) :
  structural_mismatch t →
  (∀ exp, exp ∈ EXPECTED_COLUMNS → get_close_matches exp ["raw"] = []) →
  renamed_labels EXPECTED_COLUMNS t = ["raw"] ∧ "raw" ∉ EXPECTED_COLUMNS.
Proof.
  intros Hm Hnone. split.
  - unfold renamed_labels. cbv zeta. rewrite table_frame_mismatch by done.
    cbn [columns raw_frame]. change (normalize_label <$> ["raw"]) with ["raw"].
    by rewrite close_mapping_fold, mapping_fold_none.
  - intros Hin. specialize (Hnone _ Hin).
    rewrite get_close_matches_exact in Hnone by (by left). done.
Qed.

(** X24: the degraded path, end to end.  A page whose table does not fit
    its header goes through the one-column "raw" frame; when no expected
    column is a close match of "raw", [parse] keeps one row per row of the
    table (the header row included) and every cell of the result is the
    text "<NA>": the content of the page is lost, without an error. *)
Theorem parse_fallback_all_NA (EXPECTED_COLUMNS : list string) (p : page) (t : RawTable) :
  page_table p = Some t → structural_mismatch t → NoDup EXPECTED_COLUMNS →
  (∀ exp, exp ∈ EXPECTED_COLUMNS → get_close_matches exp ["raw"] = []) →
  parse EXPECTED_COLUMNS [p]
  = Ok (mkDataFrame EXPECTED_COLUMNS
          ((fun _ => (fun _ => CStr "<NA>") <$> EXPECTED_COLUMNS) <$> t)).
Proof.
  intros Hp Hm Hnd Hnone.
  destruct (renamed_labels_raw EXPECTED_COLUMNS t Hm Hnone) as [Hren Hraw].
  assert (_extract_tables [p] = [t]) as Htables.
  { unfold _extract_tables. simpl. by rewrite extract_page_spec, Hp. }
  apply parse_ok_intro; rewrite Htables.
  - right. split; [done|]. constructor; [|constructor].
    intros k Hk. rewrite Hren. unfold carriers.
    rewrite filter_cons_False, filter_nil by (intros <-; done). simpl. lia.
  - unfold parsed_rows. cbn [fmap list_fmap stacked aligned_frame rows].
    rewrite aligned_rows_reindex
      by (rewrite table_frame_mismatch by done; simpl; apply NoDup_singleton).
    rewrite Hren, table_frame_mismatch by done. cbn [rows raw_frame].
    rewrite <-!list_fmap_compose. apply list_fmap_ext. intros _ r _. simpl.
    rewrite <-list_fmap_compose. apply Forall_fmap_ext_1, Forall_forall.
    intros exp Hexp. simpl.
    rewrite lookup_insert_ne by (intros <-; done). by rewrite lookup_empty.
Qed.

Lemma example_document_unambiguous :
  NoDup example_schema
  ∧ Forall (unambiguous example_schema) (_extract_tables example_document).
Proof.
  split.
  - apply (bool_decide_unpack _). vm_compute. exact I.
  - change (_extract_tables example_document)
      with [example_first_table; example_second_table].
    constructor; [|constructor; [|constructor]];
      intros k Hk; apply (bool_decide_unpack _); revert k Hk;
      apply Forall_forall; apply (bool_decide_unpack _); vm_compute; exact I.
Defined.

Lemma parse_example_document :
  parse example_schema example_document = Ok example_parsed.
Proof. vm_compute. reflexivity. Defined.

Lemma parse_ok_iff_witness :
  parse example_schema example_document = Ok example_parsed
  ∧ parse example_schema [example_page]
    = Ok (mkDataFrame example_schema [[CStr "2024-01-01"; CStr "<NA>"; CStr "<NA>"]]).
Proof.
  split.
  - apply (parse_ok_iff example_schema example_document). split; [|by vm_compute].
    right. exact example_document_unambiguous.
  - apply (parse_ok_iff example_schema [example_page]). split; [|by vm_compute].
    right. split.
    + apply (bool_decide_unpack _). vm_compute. exact I.
    + constructor; [|constructor]. intros k Hk.
      apply (bool_decide_unpack _). revert k Hk. apply Forall_forall.
      apply (bool_decide_unpack _). vm_compute. exact I.
Defined.

Lemma cleanup_ok_iff_NoDup_witness :
  (∃ df, cleanup example_aligned = Ok df ∧ columns df = example_schema)
  ∧ cleanup (mkDataFrame ["date"; "date"] [[CNA; CNA]]) = Raise AttributeError.
Proof.
  split.
  - apply (proj1 (cleanup_ok_iff_NoDup example_aligned)).
    apply (bool_decide_unpack _). vm_compute. exact I.
  - apply (proj2 (cleanup_ok_iff_NoDup (mkDataFrame ["date"; "date"] [[CNA; CNA]]))).
    apply (bool_decide_unpack _). vm_compute. exact I.
Defined.

Lemma parse_postcondition_witness :
  columns example_parsed = example_schema
  ∧ well_formed example_parsed
  ∧ Forall (Forall clean) (rows example_parsed).
Proof.
  apply (parse_postcondition example_schema example_document).
  exact parse_example_document.
Defined.

Lemma parse_row_count_witness :
  length (rows example_parsed) = sum_list (row_count <$> _extract_tables example_document).
Proof.
  apply (parse_row_count example_schema example_document).
  exact parse_example_document.
Defined.

Lemma normalize_parse_noop_witness :
  normalize_for_comparison example_parsed = example_parsed.
Proof.
  apply (normalize_parse_noop example_schema example_document).
  exact parse_example_document.
Defined.

Lemma parse_exact_header_witness :
  parse example_schema
    [mkPage (Some (example_schema :: [["2024-01-01"; " Coffee "; "3.50"]; ["2024-01-02"]]))
       None]
  = Ok (mkDataFrame example_schema
          [[CStr "2024-01-01"; CStr "Coffee"; CStr "3.50"];
           [CStr "2024-01-02"; CStr "None"; CStr "None"]]).
Proof.
  apply (parse_exact_header example_schema
           [["2024-01-01"; " Coffee "; "3.50"]; ["2024-01-02"]] None).
  - apply (bool_decide_unpack _). vm_compute. exact I.
  - repeat constructor.
  - intros [_ Hmax]. by apply Hmax.
Defined.

Lemma parse_fallback_all_NA_witness :
  parse example_schema [mkPage (Some example_wide_table) None]
  = Ok (mkDataFrame example_schema
          [[CStr "<NA>"; CStr "<NA>"; CStr "<NA>"]; [CStr "<NA>"; CStr "<NA>"; CStr "<NA>"]]).
Proof.
  apply (parse_fallback_all_NA example_schema (mkPage (Some example_wide_table) None)
           example_wide_table).
  - reflexivity.
  - split; [discriminate|]. simpl. lia.
  - apply (bool_decide_unpack _). vm_compute. exact I.
  - intros exp Hexp. revert exp Hexp. apply Forall_forall.
    repeat constructor.
Defined.

End ParseMore.

(** ** The normal form of a label *)

Module LabelMore.
Import Spec ParserFacts ParseMore.

Lemma re_sub_ws_run_starts s : Py.starts_with_space (Py.re_sub_ws_from true s) = false.
Proof.
  induction s as [|c s IH]; [done|]. simpl.
  destruct (Py.isspace c) eqn:Hc; [done|]. simpl. done.
Qed.

Lemma re_sub_ws_spaced b s : spaced (Py.re_sub_ws_from b s) = true.
Proof.
  revert b. induction s as [|c s IH]; intros b; [done|]. simpl.
  destruct (Py.isspace c) eqn:Hc.
  - destruct b; [apply IH|]. simpl. by rewrite re_sub_ws_run_starts, IH.
  - simpl. by rewrite Hc, IH.
Qed.

Lemma spaced_tail c s : spaced (String c s) = true → spaced s = true.
Proof. simpl. by intros [_ ?]%andb_prop. Qed.

Lemma spaced_lstrip s : spaced s = true → spaced (Py.lstrip s) = true.
Proof.
  induction s as [|c s IH]; [done|]. intros Hs. simpl.
  destruct (Py.isspace c); [|done]. by apply IH, (spaced_tail c).
Qed.

Lemma rstrip_head s d r : Py.rstrip s = String d r → ∃ r', s = String d r'.
Proof.
  intros Hr. destruct (rstrip_spec s) as (post & Hs & _).
  rewrite Hr, append_String in Hs. eauto.
Qed.

Lemma spaced_rstrip s : spaced s = true → spaced (Py.rstrip s) = true.
Proof.
  induction s as [|c s IH]; [done|]. intros Hs.
  pose proof (IH (spaced_tail c s Hs)) as IH'.
  change (Py.rstrip (String c s))
    with (match Py.rstrip s with
          | EmptyString => if Py.isspace c then EmptyString else String c EmptyString
          | r => String c r
          end).
  destruct (Py.rstrip s) as [|d r] eqn:Hr.
  - destruct (Py.isspace c) eqn:Hc; [done|]. simpl. by rewrite Hc.
  - destruct (rstrip_head s d r Hr) as [r' ->].
    change (spaced (String c (String d r)))
      with ((if Py.isspace c then Ascii.eqb c " " && negb (Py.isspace d) else true)
            && spaced (String d r)).
    change (spaced (String c (String d r')))
      with ((if Py.isspace c then Ascii.eqb c " " && negb (Py.isspace d) else true)
            && spaced (String d r')) in Hs.
    apply andb_prop in Hs as [-> _]. by rewrite IH'.
Qed.

Lemma re_sub_ws_spaced_id b s :
  spaced s = true → (b = true → Py.starts_with_space s = false) →
  Py.re_sub_ws_from b s = s.
Proof.
  revert b. induction s as [|c s IH]; intros b Hs Hb; [done|].
  pose proof (spaced_tail c s Hs) as Hs'. simpl in Hs |- *.
  destruct (Py.isspace c) eqn:Hc.
  - destruct b; [simpl in Hb; rewrite Hc in Hb; by discriminate Hb|].
    apply andb_prop in Hs as [[Heq Hnext]%andb_prop _].
    apply Ascii.eqb_eq in Heq as ->. apply negb_true_iff in Hnext.
    f_equal. by apply IH.
  - f_equal. by apply IH.
Qed.

Lemma normalize_label_spaced c : spaced (normalize_label c) = true.
Proof. apply spaced_rstrip, spaced_lstrip, re_sub_ws_spaced. Qed.

(** X22: the normalization of the labels (line 66) yields a normal form
    and is stable: in a normalized label every whitespace character is a
    single SPACE between two others, none stands at either end, and
    normalizing again changes nothing. *)
Theorem normalize_label_idem (c : string) :
  normalize_label (normalize_label c) = normalize_label c
  ∧ spaced (normalize_label c) = true
  ∧ Py.starts_with_space (normalize_label c) = false
  ∧ ends_with_space (normalize_label c) = false.
Proof.
  pose proof (normalize_label_spaced c) as Hs.
  destruct (strip_spec (Py.re_sub_ws c)) as (_ & _ & _ & _ & _ & Hstart & Hend).
  fold (normalize_label c) in Hstart, Hend. split_and!; [|done..].
  unfold normalize_label at 1. unfold Py.re_sub_ws.
  rewrite re_sub_ws_spaced_id by done. apply strip_idem.
Qed.

End LabelMore.

(** ** The agent: output, files and the target *)


(** ** The agent: output, files and the target *)

Module AgentMore.
Import Agent Spec AgentFacts ParserFacts ExtractorFacts ParseMore.

(** *** Paths *)

Lemma length_append (a b : string) :
  String.length (a ++ b) = String.length a + String.length b.
Proof. induction a as [|c a IH]; [done|]. rewrite append_String. simpl. by rewrite IH. Qed.

Lemma append_inj_r (a b s : string) : (a ++ s = b ++ s)%string → a = b.
Proof.
  revert b. induction a as [|c a IH]; intros [|d b] Heq; [done| | |].
  - apply (f_equal String.length) in Heq.
    rewrite ?append_Empty, ?append_String in Heq. simpl in Heq.
    rewrite length_append in Heq. lia.
  - apply (f_equal String.length) in Heq.
    rewrite ?append_Empty, ?append_String in Heq. simpl in Heq.
    rewrite length_append in Heq. lia.
  - rewrite !append_String in Heq. injection Heq as -> Heq. f_equal. by apply IH.
Qed.

Lemma test_path_inj (t1 t2 : string) : test_path t1 = test_path t2 → t1 = t2.
Proof.
  unfold test_path. rewrite !append_String, !append_Empty. intros Heq.
  injection Heq as Heq. by apply append_inj_r in Heq.
Qed.

(** *** The target *)

Lemma isspace_lower_char c : Py.isspace (Py.lower_char c) = Py.isspace c.
Proof. by destruct c as [[] [] [] [] [] [] [] []]. Qed.

Lemma lower_char_idem c : Py.lower_char (Py.lower_char c) = Py.lower_char c.
Proof. by destruct c as [[] [] [] [] [] [] [] []]. Qed.

Lemma lower_idem s : Py.lower (Py.lower s) = Py.lower s.
Proof. induction s as [|c s IH]; [done|]. simpl. by rewrite lower_char_idem, IH. Qed.

Lemma lstrip_lower s : Py.lstrip (Py.lower s) = Py.lower (Py.lstrip s).
Proof.
  induction s as [|c s IH]; [done|]. simpl. rewrite isspace_lower_char.
  by destruct (Py.isspace c).
Qed.

Lemma rstrip_lower s : Py.rstrip (Py.lower s) = Py.lower (Py.rstrip s).
Proof.
  induction s as [|c s IH]; [done|]. simpl. rewrite IH, isspace_lower_char.
  destruct (Py.rstrip s); simpl; [|done]. by destruct (Py.isspace c).
Qed.

Lemma strip_lower s : Py.strip (Py.lower s) = Py.lower (Py.strip s).
Proof. unfold Py.strip. by rewrite lstrip_lower, rstrip_lower. Qed.

Section Loop.

Variable pytest : nat → bool.

(** X16: the folder is looked up under the normalized target only, so
    [main] does the same for an argument and for its normal form: padding
    and upper case in [--target] change nothing. *)
Theorem main_target_normalized (arg : string) (st : state) :
  main pytest (Py.lower (Py.strip arg)) st = main pytest arg st.
Proof.
  unfold main.
  assert (Py.lower (Py.strip (Py.lower (Py.strip arg))) = Py.lower (Py.strip arg)) as ->;
    [|done].
  by rewrite strip_lower, strip_idem, lower_idem.
Qed.

(** *** The output *)


(** *** The files *)

Lemma main_files (arg : string) (st : state) :
  let target := Py.lower (Py.strip arg) in
  let r := main pytest arg st in
  DATA_DIR r.2 = DATA_DIR st
  ∧ CUSTOM_DIR r.2 = CUSTOM_DIR st
  ∧ (inputs_present st target →
       TESTS_DIR r.2 = <[test_path target := test_file target]> (TESTS_DIR st))
  ∧ (inputs_missing st target → TESTS_DIR r.2 = TESTS_DIR st).
Proof.
  cbv zeta.
  destruct (inputs_present_or_missing st (Py.lower (Py.strip arg)))
    as [(pdf & golden & Hdata)|Hmiss].
  - rewrite (main_inputs_present pytest arg st pdf golden Hdata).
    cbn [snd DATA_DIR CUSTOM_DIR TESTS_DIR]. split_and!; [done..|].
    intros [Hnone|(f & Hf & Hfile)]; [congruence|].
    rewrite Hdata in Hf. injection Hf as <-. by destruct Hfile.
  - rewrite (main_inputs_missing pytest arg st Hmiss).
    cbn [snd DATA_DIR CUSTOM_DIR TESTS_DIR]. split_and!; [done|done| |done].
    intros (pdf & golden & Hdata). destruct Hmiss as [Hnone|(f & Hf & Hfile)]; [congruence|].
    rewrite Hdata in Hf. injection Hf as <-. by destruct Hfile.
Qed.

(** X19: a run for one target leaves the data directory and the directory
    of the parsers as they were (no parser file is written, for any target),
    and the test file of every other target is what it was: the only
    file a run may write is the test of its own target. *)
Theorem main_other_targets_untouched (arg : string) (st : state) (other : string) :
  other ≠ Py.lower (Py.strip arg) →
  let r := main pytest arg st in
  DATA_DIR r.2 = DATA_DIR st
  ∧ CUSTOM_DIR r.2 = CUSTOM_DIR st
  ∧ TESTS_DIR r.2 !! test_path other = TESTS_DIR st !! test_path other.
Proof.
  intros Hother r. subst r.
  destruct (main_files arg st) as (Hd & Hc & Hpresent & Hmissing).
  split_and!; [done|done|].
  destruct (inputs_present_or_missing st (Py.lower (Py.strip arg))) as [Hin|Hmiss].
  - rewrite (Hpresent Hin). apply lookup_insert_ne. intros Heq. apply Hother.
    symmetry. by apply test_path_inj.
  - by rewrite (Hmissing Hmiss).
Qed.

(** X20: running the agent again for the same target changes no file: the
    three directories after a second run are those after the first. *)
Theorem main_twice_same_files (arg : string) (st : state) :
  same_files (main pytest arg (main pytest arg st).2).2 (main pytest arg st).2.
Proof.
  destruct (main_files arg st) as (Hd & Hc & Hpresent & Hmissing).
  destruct (main_files arg (main pytest arg st).2) as (Hd2 & Hc2 & Hpresent2 & Hmissing2).
  unfold same_files. split_and!; [done|done|].
  destruct (inputs_present_or_missing st (Py.lower (Py.strip arg))) as [Hin|Hmiss].
  - rewrite Hpresent2 by (unfold inputs_present in *; by rewrite Hd).
    rewrite (Hpresent Hin). apply insert_insert_eq.
  - apply Hmissing2. unfold inputs_missing in *. by rewrite Hd.
Qed.

End Loop.

Lemma main_target_normalized_witness :
  main (fun _ => true) "icici" example_state = main (fun _ => true) " ICICI " example_state.
Proof. apply (main_target_normalized (fun _ => true) " ICICI " example_state). Defined.

Lemma main_other_targets_untouched_witness :
  let r := main (fun _ => false) " ICICI " example_state in
  DATA_DIR r.2 = DATA_DIR example_state
  ∧ CUSTOM_DIR r.2 = CUSTOM_DIR example_state
  ∧ TESTS_DIR r.2 !! test_path "sbi" = TESTS_DIR example_state !! test_path "sbi".
Proof.
  apply (main_other_targets_untouched (fun _ => false) " ICICI " example_state "sbi").
  vm_compute. discriminate.
Defined.

End AgentMore.
